(** * Sensor monitor: BLE telemetry pipeline

    A shallow embedding of the telemetry pipeline of the sensor monitor
    application:

    - [client/hooks/useSensorData.ts]: the React hook that owns the
      [SensorState] (connection flags, latest reading, the two bounded
      chart histories) and the one-second synthetic generator;
    - [services/BleService]: the singleton [BleServiceClass] that scans,
      connects, decodes characteristic payloads and reports through a
      callback bundle.

    JavaScript numbers are modelled by [jsnum]: [JNaN], or [JNum q] where
    the rational [q] is the exact value that the double approximates.
    Integers the code manipulates with bit operations are [Z]. *)

From Stdlib Require Import ZArith QArith Qreduction String Ascii List Bool Lia Lqa Sorted.
From stdpp Require Import base list.
Import ListNotations.

Local Open Scope string_scope.
Local Open Scope Z_scope.

(** ** JavaScript values used by the pipeline *)

Inductive jsnum : Type :=
| JNaN
| JNum (q : Q).

(** [x / d] where [x] is an array element that may be [undefined]
    (index out of range): [undefined / d] is [NaN]. *)
Definition js_div (x : option Z) (d : positive) : jsnum :=
  match x with
  | None => JNaN
  | Some z => JNum (Qred (z # d))
  end.

(** [a + u * b] on finite numbers, as in [generateRandomReading]. *)
Definition js_affine (a u b : Q) : jsnum := JNum (Qred (a + u * b)).

(** JavaScript truthiness of an optional string: [undefined], [null] and
    the empty string are falsy. *)
Definition truthy (s : option string) : bool :=
  match s with
  | None => false
  | Some s => negb (String.eqb s "")
  end.

(** [a || b] on strings. *)
Definition js_or (a : option string) (b : string) : string :=
  match a with
  | Some s => if String.eqb s "" then b else s
  | None => b
  end.

(** [arr.slice(-n)]: the start index is [max (length + (-n)) 0]. *)
Definition slice_last {A : Type} (n : nat) (arr : list A) : list A :=
  drop (length arr - n)%nat arr.

(** ** useSensorData.ts *)

Inductive ConnectionMode : Type := simulated | real.

Record SensorReading : Type := {
  voltage : jsnum;
  current : jsnum;
  temperature : jsnum;
  ph : jsnum;
  timestamp : Z  (* Date, as milliseconds since the epoch *)
}.

Record ChartDataPoint : Type := {
  point_timestamp : Z;
  value : jsnum
}.

Record SensorState : Type := {
  isConnected : bool;
  currentReading : option SensorReading;
  voltageHistory : list ChartDataPoint;
  currentHistory : list ChartDataPoint;
  isSimulating : bool;
  connectionMode : ConnectionMode;
  connectedDeviceName : option string
}.

Definition MAX_HISTORY_POINTS : nat := 60.

(** The four [Math.random()] draws of one synthetic reading, each in
    [0, 1), and the clock at emission. *)
Record Draws : Type := { u_voltage : Q; u_current : Q; u_temperature : Q; u_ph : Q }.

Definition generateRandomReading (u : Draws) (date : Z) : SensorReading :=
  {| voltage := js_affine 3 (u_voltage u) 2;
     current := js_affine (1 # 2) (u_current u) (3 # 2);
     temperature := js_affine 35 (u_temperature u) 5;
     ph := js_affine 5 (u_ph u) 4;
     timestamp := date |}.

Definition initialState : SensorState :=
  {| isConnected := false;
     currentReading := None;
     voltageHistory := [];
     currentHistory := [];
     isSimulating := false;
     connectionMode := simulated;
     connectedDeviceName := None |}.

Definition setConnectionMode (mode : ConnectionMode) (prev : SensorState) : SensorState :=
  {| isConnected := false;
     currentReading := currentReading prev;
     voltageHistory := voltageHistory prev;
     currentHistory := currentHistory prev;
     isSimulating := false;
     connectionMode := mode;
     connectedDeviceName := None |}.

Definition startSimulation (deviceName : option string) (prev : SensorState) : SensorState :=
  {| isConnected := true;
     currentReading := currentReading prev;
     voltageHistory := voltageHistory prev;
     currentHistory := currentHistory prev;
     isSimulating := true;
     connectionMode := connectionMode prev;
     connectedDeviceName := Some (js_or deviceName "Simulated Device") |}.

Definition stopSimulation (prev : SensorState) : SensorState :=
  {| isConnected := false;
     currentReading := currentReading prev;
     voltageHistory := voltageHistory prev;
     currentHistory := currentHistory prev;
     isSimulating := false;
     connectionMode := connectionMode prev;
     connectedDeviceName := None |}.

Definition connectToRealDevice (deviceName : string) (prev : SensorState) : SensorState :=
  {| isConnected := true;
     currentReading := currentReading prev;
     voltageHistory := voltageHistory prev;
     currentHistory := currentHistory prev;
     isSimulating := false;
     connectionMode := connectionMode prev;
     connectedDeviceName := Some deviceName |}.

Definition disconnectRealDevice (prev : SensorState) : SensorState :=
  {| isConnected := false;
     currentReading := currentReading prev;
     voltageHistory := voltageHistory prev;
     currentHistory := currentHistory prev;
     isSimulating := isSimulating prev;
     connectionMode := connectionMode prev;
     connectedDeviceName := None |}.

Definition updateRealReading (reading : SensorReading) (prev : SensorState) : SensorState :=
  let timestamp := timestamp reading in
  let newVoltageHistory :=
    slice_last MAX_HISTORY_POINTS
      (voltageHistory prev ++ [{| point_timestamp := timestamp; value := voltage reading |}]) in
  let newCurrentHistory :=
    slice_last MAX_HISTORY_POINTS
      (currentHistory prev ++ [{| point_timestamp := timestamp; value := current reading |}]) in
  {| isConnected := isConnected prev;
     currentReading := Some reading;
     voltageHistory := newVoltageHistory;
     currentHistory := newCurrentHistory;
     isSimulating := isSimulating prev;
     connectionMode := connectionMode prev;
     connectedDeviceName := connectedDeviceName prev |}.

Definition toggleConnection (prev : SensorState) : SensorState :=
  if isConnected prev then
    {| isConnected := false;
       currentReading := currentReading prev;
       voltageHistory := voltageHistory prev;
       currentHistory := currentHistory prev;
       isSimulating := false;
       connectionMode := connectionMode prev;
       connectedDeviceName := None |}
  else
    {| isConnected := true;
       currentReading := currentReading prev;
       voltageHistory := voltageHistory prev;
       currentHistory := currentHistory prev;
       isSimulating := match connectionMode prev with simulated => true | real => false end;
       connectionMode := connectionMode prev;
       connectedDeviceName :=
         match connectionMode prev with
         | simulated => Some "Simulated Device"
         | real => None
         end |}.

Definition clearHistory (prev : SensorState) : SensorState :=
  {| isConnected := isConnected prev;
     currentReading := None;
     voltageHistory := [];
     currentHistory := [];
     isSimulating := isSimulating prev;
     connectionMode := connectionMode prev;
     connectedDeviceName := connectedDeviceName prev |}.

(** The state update made by one firing of the simulation interval: the
    callback draws a reading and appends it exactly as
    [updateRealReading] does. *)
Definition simulationTick (u : Draws) (date : Z) (prev : SensorState) : SensorState :=
  let reading := generateRandomReading u date in
  let timestamp := timestamp reading in
  let newVoltageHistory :=
    slice_last MAX_HISTORY_POINTS
      (voltageHistory prev ++ [{| point_timestamp := timestamp; value := voltage reading |}]) in
  let newCurrentHistory :=
    slice_last MAX_HISTORY_POINTS
      (currentHistory prev ++ [{| point_timestamp := timestamp; value := current reading |}]) in
  {| isConnected := isConnected prev;
     currentReading := Some reading;
     voltageHistory := newVoltageHistory;
     currentHistory := newCurrentHistory;
     isSimulating := isSimulating prev;
     connectionMode := connectionMode prev;
     connectedDeviceName := connectedDeviceName prev |}.

(** *** The hook instance: state, [intervalRef] and the runtime's timers

    [useEffect(..., [state.isSimulating])] runs after a commit whenever
    [isSimulating] changed: first the cleanup returned by the previous
    run, then the body. *)

Record Hook : Type := {
  state : SensorState;
  intervalRef : option nat;        (* intervalRef.current *)
  liveIntervals : list nat;        (* setInterval handles not yet cleared *)
  nextHandle : nat
}.

Definition clearInterval (h : nat) (live : list nat) : list nat :=
  filter (fun x => x <> h) live.
Arguments clearInterval : simpl never.

(** Cleanup returned by the effect body when it ran with
    [isSimulating = true]. *)
Definition effectCleanup (h : Hook) : Hook :=
  match intervalRef h with
  | Some i =>
      {| state := state h; intervalRef := intervalRef h;
         liveIntervals := clearInterval i (liveIntervals h);
         nextHandle := nextHandle h |}
  | None => h
  end.

Definition effectBody (h : Hook) : Hook :=
  if isSimulating (state h) then
    {| state := state h;
       intervalRef := Some (nextHandle h);
       liveIntervals := nextHandle h :: liveIntervals h;
       nextHandle := S (nextHandle h) |}
  else
    match intervalRef h with
    | Some i =>
        {| state := state h; intervalRef := None;
           liveIntervals := clearInterval i (liveIntervals h);
           nextHandle := nextHandle h |}
    | None => h
    end.

(** [setState(f)] followed by the commit and the effect phase. *)
Definition setState (f : SensorState -> SensorState) (h : Hook) : Hook :=
  let prev := state h in
  let h1 := {| state := f prev; intervalRef := intervalRef h;
               liveIntervals := liveIntervals h; nextHandle := nextHandle h |} in
  if Bool.eqb (isSimulating prev) (isSimulating (f prev)) then h1
  else effectBody (if isSimulating prev then effectCleanup h1 else h1).

(** First render: initial state, then the effect body runs once. *)
Definition mountHook : Hook :=
  effectBody {| state := initialState; intervalRef := None;
                liveIntervals := []; nextHandle := 1%nat |}.

(** The calls that record a reading into the history. *)
Inductive RecordCall : Type :=
| RealReading (reading : SensorReading)
| SimulatedTick (u : Draws) (date : Z).

Definition record (c : RecordCall) (prev : SensorState) : SensorState :=
  match c with
  | RealReading r => updateRealReading r prev
  | SimulatedTick u d => simulationTick u d prev
  end.

Definition readingOf (c : RecordCall) : SensorReading :=
  match c with
  | RealReading r => r
  | SimulatedTick u d => generateRandomReading u d
  end.

Definition voltagePoint (r : SensorReading) : ChartDataPoint :=
  {| point_timestamp := timestamp r; value := voltage r |}.
Definition currentPoint (r : SensorReading) : ChartDataPoint :=
  {| point_timestamp := timestamp r; value := current r |}.

(** The states after each call of a sequence, starting after the first. *)
Fixpoint recordTrace (cs : list RecordCall) (st : SensorState) : list SensorState :=
  match cs with
  | [] => []
  | c :: cs' => let st' := record c st in st' :: recordTrace cs' st'
  end.

Definition recordAll (cs : list RecordCall) (st : SensorState) : SensorState :=
  fold_left (fun s c => record c s) cs st.

(** ** services/BleService: payload decoding *)

(** [s[i]]: the character at index [i], [undefined] out of range. *)
Definition charAt (s : string) (i : Z) : option ascii :=
  if i <? 0 then None else String.get (Z.to_nat i) s.

Fixpoint indexFrom (c : ascii) (s : string) (i : Z) : Z :=
  match s with
  | EmptyString => -1
  | String a s' => if Ascii.eqb a c then i else indexFrom c s' (i + 1)
  end.

(** [s.indexOf(c)] for [c] a one-character string or [undefined]; the
    text "undefined" does not occur in the alphabet below. *)
Definition indexOf (s : string) (c : option ascii) : Z :=
  match c with
  | None => -1
  | Some c => indexFrom c s 0
  end.

(** [c === "="]. *)
Definition isPad (c : option ascii) : bool :=
  match c with
  | Some c => Ascii.eqb c "="%char
  | None => false
  end.

Definition chars : string :=
  "ABCDEFGHIJKLMNOPQRSTUVWXYZabcdefghijklmnopqrstuvwxyz0123456789+/".

(** ToIndex of a finite number: truncation towards zero, and a
    RangeError ([None]) when the result is negative. *)
Definition ToIndex (q : Q) : option nat :=
  let n := Z.quot (Qnum q) (Z.pos (Qden q)) in
  if n <? 0 then None else Some (Z.to_nat n).

(** [new Uint8Array(length)]: [length] zero bytes, or a RangeError. *)
Definition newUint8Array (len : Q) : option (list Z) :=
  match ToIndex len with
  | Some n => Some (replicate n 0)
  | None => None
  end.

(** [bytes[p] = v] on a [Uint8Array]: [v] is taken modulo 256, and a
    store past the end is ignored. *)
Definition storeUint8 (bytes : list Z) (p : nat) (v : Z) : list Z :=
  <[p := v mod 256]> bytes.

(** One pass of the body of the [for] loop at index [i]; returns the
    array and [p]. *)
Definition decodeGroup (base64 : string) (i : Z) (p : nat) (bytes : list Z)
  : list Z * nat :=
  let encoded1 := indexOf chars (charAt base64 i) in
  let encoded2 := indexOf chars (charAt base64 (i + 1)) in
  let encoded3 := indexOf chars (charAt base64 (i + 2)) in
  let encoded4 := indexOf chars (charAt base64 (i + 3)) in
  let bytes := storeUint8 bytes p (Z.lor (Z.shiftl encoded1 2) (Z.shiftr encoded2 4)) in
  let p := S p in
  let '(bytes, p) :=
    if negb (encoded3 =? -1) && negb (isPad (charAt base64 (i + 2))) then
      (storeUint8 bytes p (Z.lor (Z.shiftl (Z.land encoded2 15) 4) (Z.shiftr encoded3 2)), S p)
    else (bytes, p) in
  if negb (encoded4 =? -1) && negb (isPad (charAt base64 (i + 3))) then
    (storeUint8 bytes p (Z.lor (Z.shiftl (Z.land encoded3 3) 6) encoded4), S p)
  else (bytes, p).

(** [for (let i = 0; i < base64.length; i += 4) { ... }], with fuel;
    [None] only when the fuel runs out. *)
Fixpoint decodeLoop (fuel : nat) (base64 : string) (i : Z) (p : nat) (bytes : list Z)
  : option (list Z) :=
  match fuel with
  | O => None
  | S fuel' =>
      if i <? Z.of_nat (String.length base64) then
        let '(bytes', p') := decodeGroup base64 i p bytes in
        decodeLoop fuel' base64 (i + 4) p' bytes'
      else Some bytes
  end.

Definition fallbackBytes : list Z := [300; 100; 370; 70].

Definition decodeBase64 (base64 : string) : option (list Z) :=
  let len := Z.of_nat (String.length base64) in
  let bufferLength := (inject_Z len * (3 # 4))%Q in
  let bufferLength :=
    if isPad (charAt base64 (len - 1)) then (bufferLength - 1)%Q else bufferLength in
  let bufferLength :=
    if isPad (charAt base64 (len - 2)) then (bufferLength - 1)%Q else bufferLength in
  match newUint8Array bufferLength with
  | Some bytes => decodeLoop (S (String.length base64)) base64 0 0 bytes
  | None => Some fallbackBytes   (* catch *)
  end.

(** The reading built from decoded bytes and the acquisition instant. *)
Definition readingOfBytes (data : list Z) (date : Z) : SensorReading :=
  {| voltage := js_div (data !! 0%nat) 100;
     current := js_div (data !! 1%nat) 100;
     temperature := js_div (data !! 2%nat) 10;
     ph := js_div (data !! 3%nat) 10;
     timestamp := date |}.

(** The reading the spec calls the fixed fallback reading. *)
Definition fallbackReading (date : Z) : SensorReading :=
  {| voltage := JNum 3; current := JNum 1;
     temperature := JNum 37; ph := JNum 7; timestamp := date |}.

(** ** services/BleService: the service object and its environment *)

Module BleDevice.
Record t : Type := {
  id : string;
  name : string;
  rssi : Z;
  isConnectable : bool
}.
End BleDevice.

(** A device object of the BLE library, as far as the service reads it;
    absent fields are [null] or [undefined]. *)
Module Device.
Record t : Type := {
  id : string;
  name : option string;
  rssi : option Z;
  isConnectable : option bool
}.
End Device.

(** Calls on the callback bundle ([BleServiceCallbacks]). *)
Inductive Event : Type :=
| onDeviceFound (device : BleDevice.t)
| onConnectionStateChange (connected : bool) (deviceName : option string)
| onDataReceived (reading : SensorReading)
| onError (error : string).

(** The fields of [BleServiceClass]. [manager] and [callbacks] record
    whether the field is non-null. *)
Record BleServiceClass : Type := {
  manager : bool;
  device : option Device.t;
  isScanning : bool;
  callbacks : bool;
  isInitialized : bool;
  initError : option string
}.

(** The service together with what it acts on: the handlers' view
    ([delivered], oldest first), the clock and the timers of the
    JavaScript runtime, and the BLE library.

    [scanDeadline] is a history variable, not a field of the program: the
    instant [start + timeout] of the latest scan that was opened. *)
Record World : Type := {
  svc : BleServiceClass;
  delivered : list Event;
  clock : Z;
  timeouts : list Z;      (* due times of pending [setTimeout(() => this.stopScan(), _)] *)
  nativeScan : bool;      (* the library is scanning and calls the scan listener *)
  link : bool;            (* a transport connection with the disconnect observer attached *)
  cancellations : nat;    (* calls of [device.cancelConnection()] *)
  monitoring : bool;      (* the characteristic monitor is subscribed *)
  pollInterval : bool;    (* the polling [setInterval] is active *)
  scanDeadline : Z
}.

Definition with_svc (f : BleServiceClass -> BleServiceClass) (w : World) : World :=
  {| svc := f (svc w); delivered := delivered w; clock := clock w;
     timeouts := timeouts w; nativeScan := nativeScan w; link := link w;
     cancellations := cancellations w; monitoring := monitoring w;
     pollInterval := pollInterval w; scanDeadline := scanDeadline w |}.

Definition set_manager (b : bool) (s : BleServiceClass) : BleServiceClass :=
  {| manager := b; device := device s; isScanning := isScanning s;
     callbacks := callbacks s; isInitialized := isInitialized s;
     initError := initError s |}.
Definition set_device (d : option Device.t) (s : BleServiceClass) : BleServiceClass :=
  {| manager := manager s; device := d; isScanning := isScanning s;
     callbacks := callbacks s; isInitialized := isInitialized s;
     initError := initError s |}.
Definition set_isScanning (b : bool) (s : BleServiceClass) : BleServiceClass :=
  {| manager := manager s; device := device s; isScanning := b;
     callbacks := callbacks s; isInitialized := isInitialized s;
     initError := initError s |}.
Definition set_callbacks (b : bool) (s : BleServiceClass) : BleServiceClass :=
  {| manager := manager s; device := device s; isScanning := isScanning s;
     callbacks := b; isInitialized := isInitialized s;
     initError := initError s |}.
Definition set_isInitialized (b : bool) (s : BleServiceClass) : BleServiceClass :=
  {| manager := manager s; device := device s; isScanning := isScanning s;
     callbacks := callbacks s; isInitialized := b;
     initError := initError s |}.
Definition set_initError (e : option string) (s : BleServiceClass) : BleServiceClass :=
  {| manager := manager s; device := device s; isScanning := isScanning s;
     callbacks := callbacks s; isInitialized := isInitialized s;
     initError := e |}.

Definition set_delivered (l : list Event) (w : World) : World :=
  {| svc := svc w; delivered := l; clock := clock w;
     timeouts := timeouts w; nativeScan := nativeScan w; link := link w;
     cancellations := cancellations w; monitoring := monitoring w;
     pollInterval := pollInterval w; scanDeadline := scanDeadline w |}.
Definition set_clock (t : Z) (w : World) : World :=
  {| svc := svc w; delivered := delivered w; clock := t;
     timeouts := timeouts w; nativeScan := nativeScan w; link := link w;
     cancellations := cancellations w; monitoring := monitoring w;
     pollInterval := pollInterval w; scanDeadline := scanDeadline w |}.
Definition set_timeouts (l : list Z) (w : World) : World :=
  {| svc := svc w; delivered := delivered w; clock := clock w;
     timeouts := l; nativeScan := nativeScan w; link := link w;
     cancellations := cancellations w; monitoring := monitoring w;
     pollInterval := pollInterval w; scanDeadline := scanDeadline w |}.
Definition set_nativeScan (b : bool) (w : World) : World :=
  {| svc := svc w; delivered := delivered w; clock := clock w;
     timeouts := timeouts w; nativeScan := b; link := link w;
     cancellations := cancellations w; monitoring := monitoring w;
     pollInterval := pollInterval w; scanDeadline := scanDeadline w |}.
Definition set_link (b : bool) (w : World) : World :=
  {| svc := svc w; delivered := delivered w; clock := clock w;
     timeouts := timeouts w; nativeScan := nativeScan w; link := b;
     cancellations := cancellations w; monitoring := monitoring w;
     pollInterval := pollInterval w; scanDeadline := scanDeadline w |}.
Definition set_cancellations (n : nat) (w : World) : World :=
  {| svc := svc w; delivered := delivered w; clock := clock w;
     timeouts := timeouts w; nativeScan := nativeScan w; link := link w;
     cancellations := n; monitoring := monitoring w;
     pollInterval := pollInterval w; scanDeadline := scanDeadline w |}.
Definition set_monitoring (b : bool) (w : World) : World :=
  {| svc := svc w; delivered := delivered w; clock := clock w;
     timeouts := timeouts w; nativeScan := nativeScan w; link := link w;
     cancellations := cancellations w; monitoring := b;
     pollInterval := pollInterval w; scanDeadline := scanDeadline w |}.
Definition set_pollInterval (b : bool) (w : World) : World :=
  {| svc := svc w; delivered := delivered w; clock := clock w;
     timeouts := timeouts w; nativeScan := nativeScan w; link := link w;
     cancellations := cancellations w; monitoring := monitoring w;
     pollInterval := b; scanDeadline := scanDeadline w |}.
Definition set_scanDeadline (t : Z) (w : World) : World :=
  {| svc := svc w; delivered := delivered w; clock := clock w;
     timeouts := timeouts w; nativeScan := nativeScan w; link := link w;
     cancellations := cancellations w; monitoring := monitoring w;
     pollInterval := pollInterval w; scanDeadline := t |}.

(** *** A state monad over [World]

    Each method body runs to completion on the world it is given: the
    pipeline treats scan, connect and disconnect as mutually exclusive,
    so the points where a method awaits are not interleaving points of
    the model. What the environment answers at those points (permission
    dialogs, the radio, the peripheral) is passed to the method. *)

Definition M (A : Type) : Type := World -> A * World.

#[global] Instance M_ret : MRet M := fun A a w => (a, w).
#[global] Instance M_bind : MBind M :=
  fun A B k m w => let '(a, w') := m w in k a w'.

Definition this : M BleServiceClass := fun w => (svc w, w).
Definition update (f : World -> World) : M unit := fun w => (tt, f w).
Definition assign (f : BleServiceClass -> BleServiceClass) : M unit :=
  update (with_svc f).
Definition when (b : bool) (m : M unit) : M unit := if b then m else mret tt.

(** [this.callbacks?.handler(...)]. *)
Definition emit (e : Event) : M unit :=
  fun w => (tt, if callbacks (svc w) then set_delivered (delivered w ++ [e]) w else w).

Definition exec {A : Type} (m : M A) (w : World) : World := snd (m w).
Definition result {A : Type} (m : M A) (w : World) : A := fst (m w).

(** The events a computation delivers when started on [w]. *)
Definition emitted {A : Type} (m : M A) (w : World) : list Event :=
  drop (length (delivered w)) (delivered (exec m w)).

(** A call into the library or the platform that may throw. *)
Inductive Outcome (A : Type) : Type :=
| Returns (a : A)
| Throws (message : string).
Arguments Returns {A} a.
Arguments Throws {A} message.

(** *** Initialisation and the permission and radio gate *)

(** [lib]: whether the dynamic import yields a [BleManager] class
    ([Returns false] when the import fails and [getBleManager] returns
    [null]); [Throws] when constructing the manager throws. *)
Definition initialize (lib : Outcome bool) : M bool :=
  s ← this;
  if isInitialized s then mret true
  else match lib with
       | Returns true =>
           assign (set_manager true);;
           assign (set_isInitialized true);;
           mret true
       | Returns false =>
           assign (set_initError (Some
             "Bluetooth library not available. Build with EAS to enable real Bluetooth."));;
           mret false
       | Throws _ =>
           assign (set_initError (Some
             "Failed to initialize Bluetooth. Make sure you're running a custom build, not Expo Go."));;
           mret false
       end.

Definition setCallbacks : M unit := assign (set_callbacks true).

Inductive PlatformOS : Type := web | android | ios.

Record GateEnv : Type := {
  OS : PlatformOS;
  Version : option Z;          (* [Platform.Version] when it is a number *)
  granted : Outcome bool;      (* the permission request: was all that was asked granted *)
  radioState : Outcome string  (* [manager.state()] *)
}.

Definition requestAndroidPermissions (env : GateEnv) : M bool :=
  match OS env with
  | android =>
      match granted env with
      | Throws _ => emit (onError "Failed to request permissions");; mret false
      | Returns allGranted =>
          if match Version env with Some apiLevel => 31 <=? apiLevel | None => false end
          then
            if allGranted then mret true
            else emit (onError
                   "Bluetooth permissions denied. Please grant all permissions in Settings.");;
                 mret false
          else
            if allGranted then mret true
            else emit (onError
                   "Location permission denied. Required for Bluetooth scanning.");;
                 mret false
      end
  | _ => mret true
  end.

Definition checkPermissions (env : GateEnv) : M bool :=
  s ← this;
  match OS env with
  | web => emit (onError "Bluetooth is not supported on web");; mret false
  | _ =>
      if negb (manager s) then emit (onError "Bluetooth not initialized");; mret false
      else
        hasAndroidPermissions ← requestAndroidPermissions env;
        if negb hasAndroidPermissions then mret false
        else match radioState env with
             | Throws _ => emit (onError "Failed to check Bluetooth state");; mret false
             | Returns state =>
                 if String.eqb state "PoweredOn" then mret true
                 else
                   (if String.eqb state "PoweredOff" then
                      emit (onError "Please turn on Bluetooth")
                    else if String.eqb state "Unauthorized" then
                      emit (onError "Bluetooth permission denied. Please enable in Settings.")
                    else emit (onError ("Bluetooth state: " ++ state)));;
                   mret false
             end
  end.

(** *** Discovery *)

Definition stopScan : M unit :=
  s ← this;
  when (manager s && isScanning s)
    (update (set_nativeScan false);;   (* manager.stopDeviceScan() *)
     assign (set_isScanning false)).

(** [setTimeout(() => this.stopScan(), timeoutMs)]: a negative delay
    fires as soon as possible. *)
Definition setTimeout_stopScan (timeoutMs : Z) : M unit :=
  update (fun w => set_timeouts (timeouts w ++ [clock w + Z.max 0 timeoutMs]) w).

Definition startScan (timeoutMs : Z) (env : GateEnv) (startDeviceScan : Outcome unit)
  : M unit :=
  s ← this;
  if negb (manager s) || isScanning s then mret tt
  else
    hasPermission ← checkPermissions env;
    if negb hasPermission then mret tt
    else
      assign (set_isScanning true);;
      match startDeviceScan with
      | Returns _ =>
          update (set_nativeScan true);;
          update (fun w => set_scanDeadline (clock w + Z.max 0 timeoutMs) w);;
          setTimeout_stopScan timeoutMs
      | Throws _ =>
          assign (set_isScanning false);;
          emit (onError "Failed to start scanning")
      end.

(** What the library passes to the scan listener. *)
Inductive ScanReport : Type :=
| ScanFailed (message : string)
| ScanSaw (device : option Device.t).

Definition scanListener (r : ScanReport) : M unit :=
  match r with
  | ScanFailed message =>
      emit (onError ("Scan error: " ++ message));;
      stopScan
  | ScanSaw (Some d) =>
      when (truthy (Device.name d))
        (emit (onDeviceFound
           {| BleDevice.id := Device.id d;
              BleDevice.name := js_or (Device.name d) "Unknown Device";
              BleDevice.rssi :=
                match Device.rssi d with
                | Some r => if r =? 0 then -100 else r
                | None => -100
                end;
              BleDevice.isConnectable :=
                match Device.isConnectable d with
                | Some b => b
                | None => true
                end |}))
  | ScanSaw None => mret tt
  end.

(** *** Telemetry ingestion *)

Definition handleCharacteristicData (value : option string) (date : Z) : M unit :=
  match value with
  | Some v =>
      if String.eqb v "" then mret tt
      else match decodeBase64 v with
           | Some data => emit (onDataReceived (readingOfBytes data date))
           | None => mret tt   (* not reached: [decodeBase64_total] *)
           end
  | None => mret tt
  end.

(** What the library passes to the monitor listener. *)
Inductive MonitorReport : Type :=
| MonitorFailed
| MonitorValue (value : option string).

Definition monitorListener (r : MonitorReport) (date : Z) : M unit :=
  match r with
  | MonitorFailed => mret tt
  | MonitorValue value => handleCharacteristicData value date
  end.

Definition startPollingData : M unit :=
  s ← this;
  match device s with
  | None => mret tt
  | Some _ => update (set_pollInterval true)
  end.

Definition startDataNotifications (monitor : Outcome unit) : M unit :=
  s ← this;
  match device s with
  | None => mret tt
  | Some _ =>
      match monitor with
      | Returns _ => update (set_monitoring true)
      | Throws _ => startPollingData
      end
  end.

(** The peripheral as one polling pass sees it. *)
Record Characteristic : Type := {
  isReadable : bool;
  read : Outcome (option string)   (* [(await char.read()).value] *)
}.

Record Service : Type := {
  characteristics : Outcome (list Characteristic)
}.

(** The inner [for] loop: the reading of the first readable
    characteristic whose value decodes to at least 4 bytes. *)
Fixpoint readCharacteristics (cs : list Characteristic) (date : Z) : option SensorReading :=
  match cs with
  | [] => None
  | char :: rest =>
      if isReadable char then
        match read char with
        | Returns value =>
            if truthy value then
              match decodeBase64 (default "" value) with
              | Some bytes =>
                  if (4 <=? length bytes)%nat
                  then Some (readingOfBytes bytes date)
                  else readCharacteristics rest date
              | None => readCharacteristics rest date
              end
            else readCharacteristics rest date
        | Throws _ => readCharacteristics rest date
        end
      else readCharacteristics rest date
  end.

(** The outer [for] loop; [Throws] when [service.characteristics()]
    throws before data was found. *)
Fixpoint readServices (services : list Service) (date : Z) : Outcome (option SensorReading) :=
  match services with
  | [] => Returns None
  | service :: rest =>
      match characteristics service with
      | Throws m => Throws m
      | Returns cs =>
          match readCharacteristics cs date with
          | Some reading => Returns (Some reading)
          | None => readServices rest date
          end
      end
  end.

(** One firing of the polling interval. *)
Definition pollTick (services : Outcome (list Service)) (date : Z) : M unit :=
  s ← this;
  match device s with
  | None => update (set_pollInterval false)
  | Some _ =>
      match services with
      | Throws _ =>
          emit (onError "Error reading from device");;
          update (set_pollInterval false)
      | Returns services =>
          match readServices services date with
          | Returns (Some reading) => emit (onDataReceived reading)
          | Returns None =>
              emit (onError
                "Unable to read sensor data from device. Please check your sensor configuration.");;
              update (set_pollInterval false)
          | Throws _ =>
              emit (onError "Error reading from device");;
              update (set_pollInterval false)
          end
      end
  end.

(** *** Connection lifecycle *)

(** The handler registered with [device.onDisconnected]. *)
Definition onDisconnected : M unit :=
  assign (set_device None);;
  emit (onConnectionStateChange false None).

Definition connectToDevice (deviceId : string)
    (connect : Outcome Device.t) (discover : Outcome unit) (monitor : Outcome unit)
  : M bool :=
  s ← this;
  if negb (manager s) then mret false
  else
    stopScan;;
    match connect with
    | Throws message =>
        emit (onError ("Connection failed: " ++ message));; mret false
    | Returns d =>
        assign (set_device (Some d));;
        update (set_link true);;       (* connected, observer attached *)
        match discover with
        | Throws message =>
            emit (onError ("Connection failed: " ++ message));; mret false
        | Returns _ =>
            emit (onConnectionStateChange true (Device.name d));;
            startDataNotifications monitor;;
            mret true
        end
    end.

Definition disconnect (cancelConnection : Outcome unit) : M unit :=
  s ← this;
  match device s with
  | Some _ =>
      update (fun w => set_cancellations (S (cancellations w)) w);;
      match cancelConnection with
      | Returns _ => mret tt
      | Throws _ => mret tt   (* console.log only *)
      end;;
      assign (set_device None)
  | None => mret tt
  end;;
  emit (onConnectionStateChange false None).

Definition isConnected_service (s : BleServiceClass) : bool :=
  match device s with Some _ => true | None => false end.

Definition destroy (cancelConnection : Outcome unit) : M unit :=
  stopScan;;
  disconnect cancelConnection;;
  s ← this;
  when (manager s)
    (update (set_nativeScan false);;   (* manager.destroy() *)
     assign (set_manager false));;
  assign (set_isInitialized false).

(** *** The runs of the pipeline

    What can happen to a world: a call of a public method, a callback
    from the library, or the runtime moving its clock and firing a
    timer. The clock cannot pass a pending timeout without firing it. *)

Inductive Action : Type :=
| CallInitialize (lib : Outcome bool)
| CallSetCallbacks
| CallStartScan (timeoutMs : Z) (env : GateEnv) (startDeviceScan : Outcome unit)
| CallStopScan
| CallConnect (deviceId : string)
    (connect : Outcome Device.t) (discover : Outcome unit) (monitor : Outcome unit)
| CallDisconnect (cancelConnection : Outcome unit)
| CallDestroy (cancelConnection : Outcome unit)
| ScanCallback (r : ScanReport)
| MonitorCallback (r : MonitorReport) (date : Z)
| DisconnectedCallback
| PollInterval (services : Outcome (list Service)) (date : Z)
| ClockAdvance (t : Z)
| TimeoutFires (due : Z).

Fixpoint removeFirst (x : Z) (l : list Z) : list Z :=
  match l with
  | [] => []
  | y :: l' => if x =? y then l' else y :: removeFirst x l'
  end.

Definition memZ (x : Z) (l : list Z) : bool := existsb (Z.eqb x) l.

(** [None] when the action is not enabled in [w]. *)
Definition step (a : Action) (w : World) : option World :=
  match a with
  | CallInitialize lib => Some (exec (initialize lib) w)
  | CallSetCallbacks => Some (exec setCallbacks w)
  | CallStartScan timeoutMs env o => Some (exec (startScan timeoutMs env o) w)
  | CallStopScan => Some (exec stopScan w)
  | CallConnect deviceId c d m => Some (exec (connectToDevice deviceId c d m) w)
  | CallDisconnect c => Some (exec (disconnect c) w)
  | CallDestroy c => Some (exec (destroy c) w)
  | ScanCallback r =>
      if nativeScan w then Some (exec (scanListener r) w) else None
  | MonitorCallback r date =>
      if monitoring w then Some (exec (monitorListener r date) w) else None
  | DisconnectedCallback =>
      if link w then Some (exec onDisconnected (set_link false w)) else None
  | PollInterval services date =>
      if pollInterval w then Some (exec (pollTick services date) w) else None
  | ClockAdvance t =>
      if (clock w <=? t) && forallb (fun due => t <=? due) (timeouts w)
      then Some (set_clock t w) else None
  | TimeoutFires due =>
      if memZ due (timeouts w) && (due <=? clock w)
      then Some (exec stopScan (set_timeouts (removeFirst due (timeouts w)) w))
      else None
  end.

Fixpoint run (actions : list Action) (w : World) : option World :=
  match actions with
  | [] => Some w
  | a :: rest =>
      match step a w with
      | Some w' => run rest w'
      | None => None
      end
  end.

(** The module-level singleton [new BleServiceClass()] at time [t0]. *)
Definition initialWorld (t0 : Z) : World :=
  {| svc := {| manager := false; device := None; isScanning := false;
               callbacks := false; isInitialized := false; initError := None |};
     delivered := []; clock := t0; timeouts := []; nativeScan := false;
     link := false; cancellations := 0%nat; monitoring := false;
     pollInterval := false; scanDeadline := t0 |}.

Definition reachable (w : World) : Prop :=
  exists t0 actions, run actions (initialWorld t0) = Some w.

(** The public operations of the hook, and the firing of its interval. *)
Inductive HookCall : Type :=
| SetConnectionMode (mode : ConnectionMode)
| StartSimulation (deviceName : option string)
| StopSimulation
| ConnectToRealDevice (deviceName : string)
| DisconnectRealDevice
| UpdateRealReading (reading : SensorReading)
| ToggleConnection
| ClearHistory
| IntervalFires (u : Draws) (date : Z).

Definition hookCall (c : HookCall) (h : Hook) : Hook :=
  match c with
  | SetConnectionMode mode => setState (setConnectionMode mode) h
  | StartSimulation deviceName => setState (startSimulation deviceName) h
  | StopSimulation => setState stopSimulation h
  | ConnectToRealDevice deviceName => setState (connectToRealDevice deviceName) h
  | DisconnectRealDevice => setState disconnectRealDevice h
  | UpdateRealReading reading => setState (updateRealReading reading) h
  | ToggleConnection => setState toggleConnection h
  | ClearHistory => setState clearHistory h
  | IntervalFires u date =>
      match liveIntervals h with
      | [] => h
      | _ :: _ => setState (simulationTick u date) h
      end
  end.

Definition hookRun (calls : list HookCall) : Hook :=
  fold_left (fun h c => hookCall c h) calls mountHook.

(** The application: the hook instance next to the BLE singleton. The
    hook's operations are state updates only; none of them calls the
    service. *)
Record App : Type := { hook : Hook; ble : World }.

Definition appHookCall (c : HookCall) (a : App) : App :=
  {| hook := hookCall c (hook a); ble := ble a |}.

(** ** Vocabulary of the properties, and sample worlds *)

(** Sixty-one real readings, at the instants 0 .. 60. *)
Definition sampleCalls : list RecordCall :=
  map (fun k => RealReading
         {| voltage := JNum (inject_Z (Z.of_nat k)); current := JNum 1;
            temperature := JNaN; ph := JNaN; timestamp := Z.of_nat k |})
      (seq 0 61).

(** The interval of the generator exists exactly while [isSimulating]. *)
Definition hook_inv (h : Hook) : Prop :=
  if isSimulating (state h)
  then exists i, intervalRef h = Some i /\ liveIntervals h = [i]
  else intervalRef h = None /\ liveIntervals h = [].

(** The values a [Uint8Array] holds. *)
Definition isByte (b : Z) : Prop := 0 <= b < 256.

(** A peripheral, and a world in which the manager exists, a callback
    bundle is registered and the peripheral is connected and polled (the
    monitor subscription threw). *)
Definition sensor : Device.t :=
  {| Device.id := "AA:BB"; Device.name := Some "Sensor";
     Device.rssi := Some (-60); Device.isConnectable := Some true |}.

Definition pollingWorld : World :=
  exec (connectToDevice "AA:BB" (Returns sensor) (Returns tt) (Throws "no monitor"))
    (exec setCallbacks (exec (initialize (Returns true)) (initialWorld 0))).

(** The service initialised, with a callback bundle, not connected. *)
Definition idleWorld : World :=
  exec setCallbacks (exec (initialize (Returns true)) (initialWorld 0)).

(** What holds of the scan in every world the service reaches. *)
Record scan_inv (w : World) : Prop := {
  scanning_has_manager : isScanning (svc w) = true -> manager (svc w) = true;
  native_is_flagged : nativeScan w = true -> isScanning (svc w) = true;
  scanning_has_timeout :
    isScanning (svc w) = true ->
    exists due, In due (timeouts w) /\ due <= scanDeadline w;
  timeouts_ahead : forall due, In due (timeouts w) -> clock w <= due
}.

(** Events other than device-found. *)
Definition noDeviceFound (evs : list Event) : Prop :=
  forall d, ~ In (onDeviceFound d) evs.

Definition delivers_no_device {A : Type} (m : M A) : Prop :=
  forall w, exists evs,
    delivered (exec m w) = (delivered w ++ evs)%list /\ noDeviceFound evs.

(** A scan of ten seconds opened at time 0 on an initialised service. *)
Definition iosGate : GateEnv :=
  {| OS := ios; Version := None; granted := Returns true;
     radioState := Returns "PoweredOn" |}.

Definition scanningWorld : World :=
  exec (startScan 10000 iosGate (Returns tt))
    (exec setCallbacks (exec (initialize (Returns true)) (initialWorld 0))).

(** A characteristic that one pass steps over: not readable, or its read
    throws, or it has no value, or its value resolves fewer than 4
    bytes. *)
Definition skipped (c : Characteristic) : Prop :=
  isReadable c = false
  \/ (exists message, read c = Throws message)
  \/ (exists value, read c = Returns value /\ truthy value = false)
  \/ (exists v bytes, read c = Returns (Some v)
                      /\ decodeBase64 v = Some bytes /\ (length bytes < 4)%nat).

(** A peripheral with no readable characteristic, and a service whose
    third characteristic is the first with a 4-byte payload. *)
Definition noReadable : Outcome (list Service) :=
  Returns [{| characteristics :=
                Returns [{| isReadable := false; read := Returns None |}] |}].

Definition goodService : Service :=
  {| characteristics :=
       Returns [{| isReadable := false; read := Returns None |};
                {| isReadable := true; read := Returns (Some "AQ==") |};
                {| isReadable := true; read := Returns (Some "+nhtSA==") |}] |}.

(** ** screens/BluetoothScanScreen: the callback bundle and its callers *)

Inductive DeviceType : Type := simulatedDevice | realDevice.

Module DeviceItem.
Record t : Type := {
  id : string;
  name : string;
  rssi : Z;
  type : DeviceType
}.
End DeviceItem.

Definition SIMULATED_DEVICES : list DeviceItem.t :=
  [ {| DeviceItem.id := "sim-1"; DeviceItem.name := "Simulated Sensor A";
       DeviceItem.rssi := -35; DeviceItem.type := simulatedDevice |};
    {| DeviceItem.id := "sim-2"; DeviceItem.name := "Simulated Sensor B";
       DeviceItem.rssi := -42; DeviceItem.type := simulatedDevice |};
    {| DeviceItem.id := "sim-3"; DeviceItem.name := "Demo Lab Monitor";
       DeviceItem.rssi := -55; DeviceItem.type := simulatedDevice |} ].

(** The screen: the hook it shares through the context, and its own
    [useState] cells. *)
Module Screen.
Record t : Type := {
  sensor : Hook;
  isScanning : bool;
  devices : list DeviceItem.t;
  bleError : option string
}.
End Screen.

(** The updater passed to [setDevices] by the [onDeviceFound] handler. *)
Definition foundDevice (device : BleDevice.t) (prev : list DeviceItem.t)
  : list DeviceItem.t :=
  let exists_ :=
    existsb (fun d => String.eqb (DeviceItem.id d) (BleDevice.id device)) prev in
  if exists_ then
    map (fun d =>
           if String.eqb (DeviceItem.id d) (BleDevice.id device)
           then {| DeviceItem.id := DeviceItem.id d;
                   DeviceItem.name := DeviceItem.name d;
                   DeviceItem.rssi := BleDevice.rssi device;
                   DeviceItem.type := DeviceItem.type d |}
           else d)
        prev
  else
    (prev ++ [ {| DeviceItem.id := BleDevice.id device;
                  DeviceItem.name := BleDevice.name device;
                  DeviceItem.rssi := BleDevice.rssi device;
                  DeviceItem.type := realDevice |} ])%list.

(** The bundle the screen registers with [BleService.setCallbacks]: what
    each call of a handler does to the screen. *)
Definition handleEvent (e : Event) (s : Screen.t) : Screen.t :=
  match e with
  | onDeviceFound device =>
      {| Screen.sensor := Screen.sensor s; Screen.isScanning := Screen.isScanning s;
         Screen.devices := foundDevice device (Screen.devices s);
         Screen.bleError := Screen.bleError s |}
  | onConnectionStateChange connected deviceName =>
      {| Screen.sensor :=
           if connected && truthy deviceName
           then hookCall (ConnectToRealDevice (default "" deviceName)) (Screen.sensor s)
           else hookCall DisconnectRealDevice (Screen.sensor s);
         Screen.isScanning := Screen.isScanning s;
         Screen.devices := Screen.devices s;
         Screen.bleError := Screen.bleError s |}
  | onDataReceived reading =>
      {| Screen.sensor := hookCall (UpdateRealReading reading) (Screen.sensor s);
         Screen.isScanning := Screen.isScanning s;
         Screen.devices := Screen.devices s;
         Screen.bleError := Screen.bleError s |}
  | onError error =>
      {| Screen.sensor := Screen.sensor s; Screen.isScanning := false;
         Screen.devices := Screen.devices s;
         Screen.bleError := Some error |}
  end.

Definition handleEvents (evs : list Event) (s : Screen.t) : Screen.t :=
  fold_left (fun s e => handleEvent e s) evs s.

(** The screen next to the service it drives. *)
Record Session : Type := { screen : Screen.t; radio : World }.

(** A call of a service method from the screen: the method runs on the
    service, and every handler call it makes runs on the screen, in
    order. The handlers only set state; none calls back into the
    service. *)
Definition callService {A : Type} (m : M A) (s : Session) : Session :=
  {| screen := handleEvents (emitted m (radio s)) (screen s);
     radio := exec m (radio s) |}.

Definition withSensor (f : Hook -> Hook) (s : Session) : Session :=
  {| screen := {| Screen.sensor := f (Screen.sensor (screen s));
                  Screen.isScanning := Screen.isScanning (screen s);
                  Screen.devices := Screen.devices (screen s);
                  Screen.bleError := Screen.bleError (screen s) |};
     radio := radio s |}.

(** [handleDisconnect], after its haptic feedback. *)
Definition handleDisconnect (cancelConnection : Outcome unit) (s : Session) : Session :=
  match connectionMode (state (Screen.sensor (screen s))) with
  | simulated => withSensor (hookCall StopSimulation) s
  | real => callService (disconnect cancelConnection) s
  end.

(** [handleDevicePress] on a real device, up to the result of the
    connection attempt. *)
Definition pressRealDevice (item : DeviceItem.t)
    (connect : Outcome Device.t) (discover : Outcome unit) (monitor : Outcome unit)
    (s : Session) : Session :=
  callService (connectToDevice (DeviceItem.id item) connect discover monitor) s.

(** ** The transport encoding of characteristic values

    The BLE library hands a characteristic value over as standard base64
    (RFC 4648) text of the value's bytes. [encodeBase64] is that
    encoding; it is the reference against which [decodeBase64] is
    checked and is no part of the application. *)

Definition sextet (k : Z) : ascii :=
  nth (Z.to_nat k) (list_ascii_of_string chars) "A"%char.

Fixpoint encodeChars (bytes : list Z) : list ascii :=
  match bytes with
  | [] => []
  | [a] =>
      [ sextet (Z.shiftr a 2); sextet (Z.shiftl (Z.land a 3) 4);
        "="%char; "="%char ]
  | [a; b] =>
      [ sextet (Z.shiftr a 2);
        sextet (Z.lor (Z.shiftl (Z.land a 3) 4) (Z.shiftr b 4));
        sextet (Z.shiftl (Z.land b 15) 2);
        "="%char ]
  | a :: b :: c :: rest =>
      sextet (Z.shiftr a 2)
      :: sextet (Z.lor (Z.shiftl (Z.land a 3) 4) (Z.shiftr b 4))
      :: sextet (Z.lor (Z.shiftl (Z.land b 15) 2) (Z.shiftr c 6))
      :: sextet (Z.land c 63)
      :: encodeChars rest
  end.

Definition encodeBase64 (bytes : list Z) : string :=
  string_of_list_ascii (encodeChars bytes).

(** The integers [0 .. n-1], and the tests run over all bytes. *)
Definition rangeZ (n : nat) : list Z := map Z.of_nat (seq 0 n).

Definition bits_first_test (a b : Z) : bool :=
  let s1 := Z.shiftr a 2 in
  let s2 := Z.lor (Z.shiftl (Z.land a 3) 4) (Z.shiftr b 4) in
  (0 <=? s1) && (s1 <? 64) && (0 <=? s2) && (s2 <? 64)
  && (Z.lor (Z.shiftl s1 2) (Z.shiftr s2 4) mod 256 =? a)
  && (Z.land s2 15 =? Z.shiftr b 4).

Definition bits_second_test (b c : Z) : bool :=
  let s3 := Z.lor (Z.shiftl (Z.land b 15) 2) (Z.shiftr c 6) in
  let s4 := Z.land c 63 in
  (0 <=? s3) && (s3 <? 64) && (0 <=? s4) && (s4 <? 64)
  && (Z.lor (Z.shiftl (Z.shiftr b 4) 4) (Z.shiftr s3 2) mod 256 =? b)
  && (Z.lor (Z.shiftl (Z.land s3 3) 6) s4 mod 256 =? c).

(** A reading made of four bytes at the scales of the wire format. *)
Definition byteReading (date : Z) (r : SensorReading) : Prop :=
  exists b0 b1 b2 b3,
    isByte b0 /\ isByte b1 /\ isByte b2 /\ isByte b3
    /\ r = {| voltage := JNum (Qred (b0 # 100)); current := JNum (Qred (b1 # 100));
              temperature := JNum (Qred (b2 # 10)); ph := JNum (Qred (b3 # 10));
              timestamp := date |}.

(** Both histories are bounded, carry the same instants, and end with the
    points of the current reading; with no current reading they are
    empty. *)
Definition history_inv (st : SensorState) : Prop :=
  (length (voltageHistory st) <= 60)%nat
  /\ map point_timestamp (voltageHistory st) = map point_timestamp (currentHistory st)
  /\ match currentReading st with
     | None => voltageHistory st = [] /\ currentHistory st = []
     | Some r =>
         last (voltageHistory st) = Some (voltagePoint r)
         /\ last (currentHistory st) = Some (currentPoint r)
     end.

(** The conditions under which [checkPermissions] answers [true]. *)
Definition gatePasses (env : GateEnv) (s : BleServiceClass) : bool :=
  match OS env with
  | web => false
  | android =>
      manager s
      && match granted env with Returns allGranted => allGranted | Throws _ => false end
      && match radioState env with
         | Returns state => String.eqb state "PoweredOn"
         | Throws _ => false
         end
  | ios =>
      manager s
      && match radioState env with
         | Returns state => String.eqb state "PoweredOn"
         | Throws _ => false
         end
  end.

(** The world after one more call on the callback bundle. *)
Definition deliver (e : Event) (w : World) : World :=
  if callbacks (svc w) then set_delivered (delivered w ++ [e]) w else w.

(** [isAvailable()] and [getInitError()]. *)
Definition isAvailable (s : BleServiceClass) : bool :=
  isInitialized s && manager s.

Definition getInitError (s : BleServiceClass) : option string := initError s.

Definition init_inv (w : World) : Prop := isInitialized (svc w) = manager (svc w).

(** The refresh of one list item by a sighting. *)
Definition refreshed (device : BleDevice.t) (d : DeviceItem.t) : DeviceItem.t :=
  if String.eqb (DeviceItem.id d) (BleDevice.id device)
  then {| DeviceItem.id := DeviceItem.id d; DeviceItem.name := DeviceItem.name d;
          DeviceItem.rssi := BleDevice.rssi device; DeviceItem.type := DeviceItem.type d |}
  else d.

(** A screen in real mode on an idle service, and a peripheral that
    advertises no name. *)
Definition freshSession : Session :=
  {| screen := {| Screen.sensor := hookRun [SetConnectionMode real];
                  Screen.isScanning := true; Screen.devices := [];
                  Screen.bleError := None |};
     radio := idleWorld |}.

Definition nameless : Device.t :=
  {| Device.id := "CC:DD"; Device.name := None;
     Device.rssi := Some (-48); Device.isConnectable := Some true |}.

(** * Properties *)

(** ** History aggregation *)

Section SliceLast.
Context {A : Type}.
Implicit Types (l m : list A) (n : nat).

Lemma slice_last_length n l : length (slice_last n l) = Nat.min n (length l).
Proof. unfold slice_last. rewrite length_drop. lia. Qed.

Lemma slice_last_le n l : (length (slice_last n l) <= n)%nat.
Proof. rewrite slice_last_length. lia. Qed.

Lemma slice_last_short n l : (length l <= n)%nat -> slice_last n l = l.
Proof.
  intros H. unfold slice_last.
  replace (length l - n)%nat with 0%nat by lia. reflexivity.
Qed.

(** Truncating before further appends does not change what survives. *)
Lemma slice_last_app n l m :
  slice_last n (slice_last n l ++ m) = slice_last n (l ++ m).
Proof.
  destruct (Nat.le_gt_cases (length l) n) as [Hle | Hgt].
  - rewrite (slice_last_short n l Hle). reflexivity.
  - unfold slice_last at 1 3.
    rewrite !length_app, slice_last_length.
    replace (Nat.min n (length l)) with n by lia.
    replace (length l + length m - n)%nat
      with ((length l - n) + (n + length m - n))%nat by lia.
    rewrite <- drop_drop.
    rewrite (drop_app_le l m (length l - n)) by lia.
    reflexivity.
Qed.
End SliceLast.

Lemma record_voltageHistory c st :
  voltageHistory (record c st)
  = slice_last MAX_HISTORY_POINTS (voltageHistory st ++ [voltagePoint (readingOf c)]).
Proof. destruct c; reflexivity. Qed.

Lemma record_currentHistory c st :
  currentHistory (record c st)
  = slice_last MAX_HISTORY_POINTS (currentHistory st ++ [currentPoint (readingOf c)]).
Proof. destruct c; reflexivity. Qed.

Lemma record_bounded c st :
  (length (voltageHistory (record c st)) <= 60)%nat
  /\ (length (currentHistory (record c st)) <= 60)%nat.
Proof.
  rewrite record_voltageHistory, record_currentHistory.
  split; apply slice_last_le.
Qed.

Lemma recordTrace_bounded cs : forall st,
  Forall (fun s => (length (voltageHistory s) <= 60)%nat
                   /\ (length (currentHistory s) <= 60)%nat)
         (recordTrace cs st).
Proof.
  induction cs as [| c cs IH]; intros st; simpl.
  - constructor.
  - constructor; [apply record_bounded | apply IH].
Qed.

Lemma recordAll_histories cs : forall st,
  (length (voltageHistory st) <= 60)%nat ->
  (length (currentHistory st) <= 60)%nat ->
  voltageHistory (recordAll cs st)
  = slice_last 60 (voltageHistory st ++ map voltagePoint (map readingOf cs))
  /\ currentHistory (recordAll cs st)
     = slice_last 60 (currentHistory st ++ map currentPoint (map readingOf cs)).
Proof.
  induction cs as [| c cs IH]; intros st Hv Hc.
  - simpl. rewrite !app_nil_r, !slice_last_short by assumption. split; reflexivity.
  - change (recordAll (c :: cs) st) with (recordAll cs (record c st)).
    destruct (record_bounded c st) as [Hv' Hc'].
    destruct (IH (record c st) Hv' Hc') as [IHv IHc].
    rewrite IHv, IHc, record_voltageHistory, record_currentHistory.
    unfold MAX_HISTORY_POINTS.
    rewrite !slice_last_app. simpl map.
    rewrite <- !app_assoc. split; reflexivity.
Qed.

(** C1. Starting from the hook's initial state, after any sequence of
    recorded readings (real readings and simulation ticks in any order)
    both histories have at most 60 points, and so has every intermediate
    state, right after its insertion; the histories are the points of the
    recorded readings in arrival order with all but the last 60 dropped;
    and once at least 60 readings were recorded they hold exactly 60
    points, the most recent ones. *)
Theorem history_is_last_60 (cs : list RecordCall) :
  let pointsV := map voltagePoint (map readingOf cs) in
  let pointsC := map currentPoint (map readingOf cs) in
  let st := recordAll cs initialState in
  Forall (fun s => (length (voltageHistory s) <= 60)%nat
                   /\ (length (currentHistory s) <= 60)%nat)
         (initialState :: recordTrace cs initialState)
  /\ voltageHistory st = drop (length cs - 60)%nat pointsV
  /\ currentHistory st = drop (length cs - 60)%nat pointsC
  /\ ((60 <= length cs)%nat ->
      length (voltageHistory st) = 60%nat /\ length (currentHistory st) = 60%nat
      /\ (exists older, pointsV = (older ++ voltageHistory st)%list)
      /\ (exists older, pointsC = (older ++ currentHistory st)%list)).
Proof.
  intros pointsV pointsC st.
  assert (Hlen : length pointsV = length cs /\ length pointsC = length cs)
    by (unfold pointsV, pointsC; rewrite !length_map; split; reflexivity).
  destruct Hlen as [HlV HlC].
  destruct (recordAll_histories cs initialState) as [Hv Hc]; [simpl; lia .. |].
  fold st in Hv, Hc. simpl in Hv, Hc. fold pointsV in Hv. fold pointsC in Hc.
  unfold slice_last in Hv, Hc. rewrite HlV in Hv. rewrite HlC in Hc.
  split; [| split; [exact Hv | split; [exact Hc |]]].
  - constructor; [simpl; lia | apply recordTrace_bounded].
  - intros Hge. rewrite Hv, Hc, !length_drop, HlV, HlC.
    repeat split; try lia.
    + exists (take (length cs - 60)%nat pointsV). symmetry. apply take_drop.
    + exists (take (length cs - 60)%nat pointsC). symmetry. apply take_drop.
Qed.

Lemma history_is_last_60_witness :
  length (voltageHistory (recordAll sampleCalls initialState)) = 60%nat
  /\ map point_timestamp (voltageHistory (recordAll sampleCalls initialState))
     = map Z.of_nat (seq 1 60).
Proof.
  destruct (history_is_last_60 sampleCalls) as (_ & Hv & _ & Hfull).
  split.
  - apply Hfull. vm_compute. lia.
  - rewrite Hv. vm_compute. reflexivity.
Defined.

(** ** Mode controller *)

Lemma clearInterval_single i : clearInterval i [i] = [].
Proof.
  unfold clearInterval. rewrite filter_cons_False; [reflexivity | auto].
Qed.

Lemma hook_inv_setState f h : hook_inv h -> hook_inv (setState f h).
Proof.
  destruct h as [st ref live nh].
  unfold hook_inv, setState, effectBody, effectCleanup. simpl. intros H.
  destruct (isSimulating st) eqn:Hs, (isSimulating (f st)) eqn:Hf; simpl.
  - rewrite Hf. exact H.
  - destruct H as (i & -> & ->). simpl. rewrite Hf. simpl.
    rewrite clearInterval_single, ?Hf. simpl. rewrite ?Hf. auto.
  - rewrite Hf. simpl. rewrite Hf. destruct H as (_ & ->).
    eexists; split; reflexivity.
  - rewrite Hf. exact H.
Qed.

Lemma state_setState f h : state (setState f h) = f (state h).
Proof.
  destruct h as [st ref live nh].
  unfold setState, effectBody, effectCleanup. simpl.
  destruct (isSimulating st), (isSimulating (f st)) eqn:Hf; simpl;
    rewrite ?Hf; try reflexivity;
    destruct ref; simpl; rewrite ?Hf; reflexivity.
Qed.

Lemma hook_inv_hookCall c h : hook_inv h -> hook_inv (hookCall c h).
Proof.
  intros H. destruct c; simpl; try (apply hook_inv_setState; exact H).
  destruct (liveIntervals h); [exact H | apply hook_inv_setState; exact H].
Qed.

Lemma hook_inv_hookRun calls : hook_inv (hookRun calls).
Proof.
  unfold hookRun.
  assert (H0 : hook_inv mountHook) by (split; reflexivity).
  revert H0. generalize mountHook.
  induction calls as [| c calls IH]; intros h Hh; simpl.
  - exact Hh.
  - apply IH, hook_inv_hookCall, Hh.
Qed.

(** C7. In every state the hook can reach, [setConnectionMode
    "simulated"] followed by [startSimulation(X)] with a non-empty label
    [X] gives a connected, simulating state named [X] whose generator
    interval is running; and if the simulation is active,
    [setConnectionMode "real"] leaves [isConnected = false],
    [isSimulating = false], no device name, and no generator interval. *)
Theorem mode_switch (calls : list HookCall) (X : string) (HX : X <> "") :
  let h := hookRun calls in
  let started :=
    hookCall (StartSimulation (Some X)) (hookCall (SetConnectionMode simulated) h) in
  let live := hookCall (SetConnectionMode real) h in
  (isConnected (state started) = true
   /\ connectedDeviceName (state started) = Some X
   /\ isSimulating (state started) = true
   /\ connectionMode (state started) = simulated
   /\ exists i, liveIntervals started = [i])
  /\ (isSimulating (state h) = true ->
      isConnected (state live) = false
      /\ isSimulating (state live) = false
      /\ connectedDeviceName (state live) = None
      /\ connectionMode (state live) = real
      /\ liveIntervals live = []).
Proof.
  intros h started live. split.
  - assert (Hinv : hook_inv started)
      by (unfold started; do 2 apply hook_inv_hookCall; apply hook_inv_hookRun).
    assert (Hst : state started
                  = startSimulation (Some X) (setConnectionMode simulated (state h))).
    { unfold started. simpl. rewrite !state_setState. reflexivity. }
    unfold hook_inv in Hinv. rewrite Hst in *. simpl in *.
    destruct (String.eqb_spec X "") as [-> | _]; [contradiction |].
    repeat split; try reflexivity.
    destruct Hinv as (i & _ & Hl). exists i. exact Hl.
  - intros Hsim.
    assert (Hinv : hook_inv live)
      by (unfold live; apply hook_inv_hookCall; apply hook_inv_hookRun).
    assert (Hst : state live = setConnectionMode real (state h)).
    { unfold live. simpl. apply state_setState. }
    unfold hook_inv in Hinv. rewrite Hst in *. simpl in *.
    repeat split; try reflexivity. apply Hinv.
Qed.

Lemma mode_switch_witness :
  let h := hookRun [StartSimulation (Some "Sensor A")] in
  "X" <> ""
  /\ isSimulating (state h) = true
  /\ connectedDeviceName
       (state (hookCall (StartSimulation (Some "X"))
                 (hookCall (SetConnectionMode simulated) h))) = Some "X"
  /\ isConnected (state (hookCall (SetConnectionMode real) h)) = false
  /\ liveIntervals (hookCall (SetConnectionMode real) h) = [].
Proof.
  assert (HX : "X" <> "") by discriminate.
  destruct (mode_switch [StartSimulation (Some "Sensor A")] "X" HX)
    as [(_ & Hname & _) Hlive].
  destruct (Hlive eq_refl) as (Hc & _ & _ & _ & Hl).
  repeat split; assumption || reflexivity.
Defined.

(** C10. In every application state whose hook reports
    [isConnected = false] in mode ["real"], [toggleConnection] makes the
    hook report [isConnected = true] with [isSimulating = false] and
    [connectedDeviceName = null], while the BLE service is left exactly
    as it was: in particular it still has no active device if it had
    none. *)
Theorem toggle_reports_connected_without_device (a : App)
    (Hdisc : isConnected (state (hook a)) = false)
    (Hreal : connectionMode (state (hook a)) = real) :
  let a' := appHookCall ToggleConnection a in
  isConnected (state (hook a')) = true
  /\ isSimulating (state (hook a')) = false
  /\ connectedDeviceName (state (hook a')) = None
  /\ ble a' = ble a
  /\ (device (svc (ble a)) = None -> isConnected_service (svc (ble a')) = false).
Proof.
  intros a'.
  assert (Hst : state (hook a') = toggleConnection (state (hook a))).
  { unfold a'. simpl. apply state_setState. }
  rewrite Hst. unfold toggleConnection. rewrite Hdisc, Hreal. simpl.
  repeat split; try reflexivity.
  unfold isConnected_service. intros ->. reflexivity.
Qed.

Lemma toggle_reports_connected_without_device_witness :
  let a := {| hook := hookRun [SetConnectionMode real]; ble := initialWorld 0 |} in
  isConnected (state (hook (appHookCall ToggleConnection a))) = true
  /\ connectedDeviceName (state (hook (appHookCall ToggleConnection a))) = None
  /\ isConnected_service (svc (ble (appHookCall ToggleConnection a))) = false.
Proof.
  intros a.
  destruct (toggle_reports_connected_without_device a eq_refl eq_refl)
    as (Hc & _ & Hn & _ & Hd).
  split; [exact Hc | split; [exact Hn | apply Hd; reflexivity]].
Defined.

(** ** Payload decoder *)

Lemma storeUint8_length bytes p v : length (storeUint8 bytes p v) = length bytes.
Proof. apply length_insert. Qed.

Lemma storeUint8_bytes bytes p v :
  Forall isByte bytes -> Forall isByte (storeUint8 bytes p v).
Proof.
  intros H. unfold storeUint8. apply Forall_insert; [exact H |].
  unfold isByte. apply Z.mod_pos_bound. lia.
Qed.

Lemma decodeGroup_keeps base64 i p bytes :
  length (fst (decodeGroup base64 i p bytes)) = length bytes
  /\ (Forall isByte bytes -> Forall isByte (fst (decodeGroup base64 i p bytes))).
Proof.
  unfold decodeGroup.
  repeat match goal with
         | |- context [if ?b then _ else _] => destruct b
         end; simpl;
    rewrite ?storeUint8_length; (split; [reflexivity |]);
    intros H; repeat apply storeUint8_bytes; exact H.
Qed.

(** The loop leaves by its own test before the fuel is used up, and it
    only ever stores bytes into the array it was given. *)
Lemma decodeLoop_returns base64 : forall fuel i p bytes,
  Z.max 0 (Z.of_nat (String.length base64) - i) < Z.of_nat fuel ->
  exists out,
    decodeLoop fuel base64 i p bytes = Some out
    /\ length out = length bytes
    /\ (Forall isByte bytes -> Forall isByte out).
Proof.
  induction fuel as [| fuel IH]; intros i p bytes Hfuel; [lia |].
  simpl. destruct (Z.ltb_spec i (Z.of_nat (String.length base64))) as [Hlt | Hge].
  - destruct (decodeGroup base64 i p bytes) as [bytes' p'] eqn:Hg.
    destruct (decodeGroup_keeps base64 i p bytes) as [Hlen Hb].
    rewrite Hg in Hlen, Hb. simpl in Hlen, Hb.
    destruct (IH (i + 4) p' bytes') as (out & Hout & Hl & Hf); [lia |].
    exists out. split; [exact Hout |]. split; [congruence | auto].
  - exists bytes. auto.
Qed.

Lemma ToIndex_defined (q : Q) : (-1 < q)%Q -> exists n, ToIndex q = Some n.
Proof.
  destruct q as [a d]. unfold Qlt, ToIndex. simpl. intros H.
  assert (Hq : 0 <= a ÷ Z.pos d).
  { destruct (Z.le_gt_cases 0 a) as [Hn | Hn].
    - apply Z.quot_pos; lia.
    - assert (Hs : (- a) ÷ Z.pos d = 0) by (apply Z.quot_small; lia).
      rewrite Z.quot_opp_l in Hs by lia. lia. }
  destruct (Z.ltb_spec (a ÷ Z.pos d) 0); [lia | eauto].
Qed.

Lemma charAt_negative s i : i < 0 -> charAt s i = None.
Proof. unfold charAt. intros H. destruct (Z.ltb_spec i 0); [reflexivity | lia]. Qed.

(** [new Uint8Array(bufferLength)] never raises a RangeError in
    [decodeBase64]: the length is above [-1], so the [catch] branch with
    the fallback bytes is not taken. *)
Lemma bufferLength_allocates (base64 : string) :
  let len := Z.of_nat (String.length base64) in
  let b0 := (inject_Z len * (3 # 4))%Q in
  let b1 := if isPad (charAt base64 (len - 1)) then (b0 - 1)%Q else b0 in
  let b2 := if isPad (charAt base64 (len - 2)) then (b1 - 1)%Q else b1 in
  exists n, ToIndex b2 = Some n.
Proof.
  intros len b0 b1 b2. apply ToIndex_defined.
  assert (Hlen : 0 <= len) by (unfold len; lia).
  assert (H1 : len = 0 -> isPad (charAt base64 (len - 1)) = false)
    by (intros ->; rewrite charAt_negative by lia; reflexivity).
  assert (H2 : len <= 1 -> isPad (charAt base64 (len - 2)) = false)
    by (intros ?; rewrite charAt_negative by lia; reflexivity).
  unfold b2, b1, b0.
  destruct (isPad (charAt base64 (len - 1))), (isPad (charAt base64 (len - 2)));
    unfold Qlt, Qminus, Qplus, Qmult, Qopp, inject_Z; simpl;
    try (assert (len <> 0) by (intros E; specialize (H1 E); discriminate));
    try (assert (~ len <= 1) by (intros E; specialize (H2 E); discriminate));
    lia.
Qed.

(** [decodeBase64] returns on every string, and what it returns is an
    array of unsigned bytes. *)
Lemma decodeBase64_total (base64 : string) :
  exists bytes, decodeBase64 base64 = Some bytes /\ Forall isByte bytes.
Proof.
  unfold decodeBase64, newUint8Array.
  destruct (bufferLength_allocates base64) as [n Hn]. simpl in Hn. rewrite Hn.
  destruct (decodeLoop_returns base64 (S (String.length base64)) 0 0%nat (replicate n 0))
    as (out & Hout & _ & Hb); [lia |].
  exists out. split; [exact Hout |]. apply Hb.
  apply Forall_replicate. unfold isByte. lia.
Qed.

Lemma decodeBase64_never_fallback (base64 : string) :
  decodeBase64 base64 <> Some fallbackBytes.
Proof.
  destruct (decodeBase64_total base64) as (bytes & Hd & Hb).
  rewrite Hd. intros [= ->]. unfold fallbackBytes in Hb.
  apply Forall_cons in Hb as [H300 _]. unfold isByte in H300. lia.
Qed.

Lemma js_div_eq (x : option Z) (d : positive) (q : Q) :
  js_div x d = JNum q -> exists z, x = Some z /\ (z # d == q)%Q.
Proof.
  destruct x as [z |]; simpl; [| discriminate].
  intros [= <-]. exists z. split; [reflexivity |]. symmetry. apply Qred_correct.
Qed.

(** The events of [handleCharacteristicData] on a registered bundle. *)
Lemma handleCharacteristicData_emitted v data date w :
  callbacks (svc w) = true -> v <> "" -> decodeBase64 v = Some data ->
  emitted (handleCharacteristicData (Some v) date) w
  = [onDataReceived (readingOfBytes data date)].
Proof.
  intros Hcb Hne Hd. unfold emitted, exec, handleCharacteristicData, emit.
  destruct (String.eqb_spec v "") as [-> | _]; [contradiction |].
  rewrite Hd. simpl. rewrite Hcb. simpl.
  rewrite drop_app_length. reflexivity.
Qed.

Lemma readingOfBytes_not_fallback data date :
  Forall isByte data -> readingOfBytes data date <> fallbackReading date.
Proof.
  intros Hb Heq.
  assert (Hv : js_div (data !! 0%nat) 100 = JNum 3)
    by (change (voltage (readingOfBytes data date) = voltage (fallbackReading date));
        rewrite Heq; reflexivity).
  apply js_div_eq in Hv as (z & Hz & Hq).
  assert (Hbyte : isByte z) by (eapply Forall_lookup_1; eassumption).
  unfold Qeq in Hq. simpl in Hq. unfold isByte in Hbyte. lia.
Qed.

(** C2, evaluated on the code. With a callback bundle registered:
    the payload ["AQ=="] resolves the single byte 1 and the notification
    path delivers the reading [{0.01, NaN, NaN, NaN}]; the text ["!!!!"],
    which is no base64, resolves [255, 0, 0] and is delivered as
    [{2.55, 0, 0, NaN}]; no payload at all is delivered as the fallback
    reading [{3.00, 1.00, 37.0, 7.0}]; and in the polling path a pass
    whose only readable characteristic holds ["AQ=="] delivers no reading
    but the error that ends polling. *)
Theorem malformed_payload_reading (date : Z) (w : World)
    (Hcb : callbacks (svc w) = true) :
  decodeBase64 "AQ==" = Some [1]
  /\ emitted (handleCharacteristicData (Some "AQ==") date) w
     = [onDataReceived {| voltage := JNum (1 # 100); current := JNaN;
                          temperature := JNaN; ph := JNaN; timestamp := date |}]
  /\ decodeBase64 "!!!!" = Some [255; 0; 0]
  /\ emitted (handleCharacteristicData (Some "!!!!") date) w
     = [onDataReceived {| voltage := JNum (51 # 20); current := JNum 0;
                          temperature := JNum 0; ph := JNaN; timestamp := date |}]
  /\ (forall payload,
        emitted (handleCharacteristicData payload date) w
        <> [onDataReceived (fallbackReading date)])
  /\ (let services :=
        Returns [{| characteristics :=
                      Returns [{| isReadable := true; read := Returns (Some "AQ==") |}] |}] in
      emitted (pollTick services date) pollingWorld
      = [onError
           "Unable to read sensor data from device. Please check your sensor configuration."]
      /\ pollInterval pollingWorld = true
      /\ pollInterval (exec (pollTick services date) pollingWorld) = false).
Proof.
  split; [reflexivity |].
  split.
  { exact (handleCharacteristicData_emitted "AQ==" [1] date w Hcb
             ltac:(discriminate) eq_refl). }
  split; [reflexivity |].
  split.
  { exact (handleCharacteristicData_emitted "!!!!" [255; 0; 0] date w Hcb
             ltac:(discriminate) eq_refl). }
  split.
  - intros [v |].
    + destruct (decodeBase64_total v) as (bytes & Hd & Hb).
      destruct (String.eqb_spec v "") as [-> | Hne].
      * unfold emitted, exec. simpl. rewrite drop_all. discriminate.
      * rewrite (handleCharacteristicData_emitted v bytes date w Hcb Hne Hd).
        intros Heq. apply (readingOfBytes_not_fallback bytes date Hb).
        congruence.
    + unfold emitted, exec. simpl. rewrite drop_all. discriminate.
  - vm_compute. repeat split; reflexivity.
Qed.

Lemma malformed_payload_reading_witness :
  callbacks (svc pollingWorld) = true
  /\ emitted (handleCharacteristicData (Some "AQ==") 1000) pollingWorld
     = [onDataReceived {| voltage := JNum (1 # 100); current := JNaN;
                          temperature := JNaN; ph := JNaN; timestamp := 1000 |}].
Proof.
  split; [reflexivity |].
  apply (malformed_payload_reading 1000 pollingWorld eq_refl).
Defined.

(** C4, as the code has it. For every payload that resolves at least the
    four bytes [b0, b1, b2, b3], the reading delivered by the notification
    path, and the one the polling path builds, is
    [voltage = b0/100], [current = b1/100], [temperature = b2/10],
    [ph = b3/10] with the acquisition instant as timestamp; each resolved
    byte lies in 0..255. The scaling maps the numbers
    [250, 120, 365, 72] to [{2.50, 1.20, 36.5, 7.2}]. *)
Theorem decoded_reading_fields (payload : string) (b0 b1 b2 b3 : Z) (rest : list Z)
    (date : Z) (w : World)
    (Hcb : callbacks (svc w) = true)
    (Hd : decodeBase64 payload = Some (b0 :: b1 :: b2 :: b3 :: rest)) :
  let reading :=
    {| voltage := JNum (Qred (b0 # 100)); current := JNum (Qred (b1 # 100));
       temperature := JNum (Qred (b2 # 10)); ph := JNum (Qred (b3 # 10));
       timestamp := date |} in
  emitted (handleCharacteristicData (Some payload) date) w = [onDataReceived reading]
  /\ readCharacteristics [{| isReadable := true; read := Returns (Some payload) |}] date
     = Some reading
  /\ (isByte b0 /\ isByte b1 /\ isByte b2 /\ isByte b3)
  /\ readingOfBytes [250; 120; 365; 72] date
     = {| voltage := JNum (5 # 2); current := JNum (6 # 5);
          temperature := JNum (73 # 2); ph := JNum (36 # 5); timestamp := date |}.
Proof.
  intros reading.
  assert (Hne : payload <> "") by (intros ->; discriminate Hd).
  split; [| split; [| split]].
  - rewrite (handleCharacteristicData_emitted _ _ date w Hcb Hne Hd). reflexivity.
  - simpl. destruct (String.eqb_spec payload "") as [E | _]; [contradiction |].
    simpl. rewrite Hd. reflexivity.
  - destruct (decodeBase64_total payload) as (bytes & Hd' & Hb).
    rewrite Hd in Hd'. injection Hd' as <-.
    repeat (apply Forall_cons in Hb as [? Hb]). auto.
  - reflexivity.
Qed.

Lemma decoded_reading_fields_witness :
  decodeBase64 "+nhtSA==" = Some [250; 120; 109; 72]
  /\ emitted (handleCharacteristicData (Some "+nhtSA==") 1000) pollingWorld
     = [onDataReceived {| voltage := JNum (5 # 2); current := JNum (6 # 5);
                          temperature := JNum (109 # 10); ph := JNum (36 # 5);
                          timestamp := 1000 |}].
Proof.
  split; [reflexivity |].
  apply (decoded_reading_fields "+nhtSA==" 250 120 109 72 [] 1000 pollingWorld
           eq_refl eq_refl).
Defined.

(** Against C4 as stated: no payload resolves to [250, 120, 365, 72], and
    no payload is decoded to the reading [{2.50, 1.20, 36.5, 7.2}]. *)
Lemma payload_365_never_decoded :
  ~ ((exists payload, decodeBase64 payload = Some [250; 120; 365; 72])
     \/ (exists payload data date,
           decodeBase64 payload = Some data
           /\ readingOfBytes data date
              = {| voltage := JNum (5 # 2); current := JNum (6 # 5);
                   temperature := JNum (73 # 2); ph := JNum (36 # 5);
                   timestamp := date |})).
Proof.
  intros [[payload Hd] | (payload & data & date & Hd & Hr)];
    destruct (decodeBase64_total payload) as (bytes & Hd' & Hb);
    rewrite Hd in Hd'; injection Hd' as <-.
  - do 2 apply Forall_cons in Hb as [_ Hb].
    apply Forall_cons in Hb as [H365 _]. unfold isByte in H365. lia.
  - assert (Ht : js_div (data !! 2%nat) 10 = JNum (73 # 2))
      by (change (temperature (readingOfBytes data date) = JNum (73 # 2));
          rewrite Hr; reflexivity).
    apply js_div_eq in Ht as (z & Hz & Hq).
    assert (Hbyte : isByte z) by (eapply Forall_lookup_1; eassumption).
    unfold Qeq in Hq. simpl in Hq. unfold isByte in Hbyte. lia.
Qed.

(** ** Service methods: unfolding *)

Arguments decodeBase64 : simpl never.
Arguments readServices : simpl never.
Arguments String.eqb : simpl never.
Arguments append : simpl never.

Lemma bind_eq {A B : Type} (m : M A) (k : A -> M B) (w : World) :
  (m ≫= k) w = k (fst (m w)) (snd (m w)).
Proof. unfold mbind, M_bind. destruct (m w). reflexivity. Qed.

Ltac ble_unfold :=
  unfold emitted, exec, result, destroy, connectToDevice, disconnect, onDisconnected,
    startDataNotifications, startPollingData, pollTick, monitorListener,
    handleCharacteristicData, scanListener, startScan, setTimeout_stopScan, stopScan,
    checkPermissions, requestAndroidPermissions, initialize, setCallbacks in *.

Ltac ble_simpl :=
  repeat (rewrite ?bind_eq;
          unfold this, when, assign, update, emit, mret, M_ret;
          cbn beta iota; simpl).

Ltac ble_cases :=
  repeat match goal with
         | |- context [match ?x with _ => _ end] => destruct x eqn:?; ble_simpl
         end.

(** The gate reads the service and reports errors; it changes nothing
    else. *)
Lemma checkPermissions_frame env w :
  exists l, exec (checkPermissions env) w = set_delivered l w.
Proof.
  destruct w as [[mgr dev scanning cb init err] dl clk tos ns lk cn mon pi dead].
  ble_unfold; ble_simpl; ble_cases; eexists; unfold set_delivered; simpl; reflexivity.
Qed.

(** ** Discovery: the scan ends by its timeout *)

Lemma In_removeFirst x y l : In y (removeFirst x l) -> In y l.
Proof.
  induction l as [| z l IH]; simpl; [tauto |].
  destruct (x =? z); simpl; tauto.
Qed.

Lemma scan_inv_initial t0 : scan_inv (initialWorld t0).
Proof. split; simpl; try discriminate; tauto. Qed.

Lemma scan_inv_delivered l w : scan_inv w -> scan_inv (set_delivered l w).
Proof. intros [I1 I2 I3 I4]. split; assumption. Qed.

Ltac scan_fin :=
  split; simpl; intros;
  try first [ discriminate | congruence | solve [auto] ].

Ltac scan_brute :=
  let I1 := fresh "I1" in let I2 := fresh "I2" in
  let I3 := fresh "I3" in let I4 := fresh "I4" in
  intros [I1 I2 I3 I4];
  match goal with
  | w : World |- _ =>
      destruct w as [[mgr dev scanning cb init err] dl clk tos ns lk cn mon pi dead]
  end;
  simpl in *; ble_unfold; ble_simpl; ble_cases; scan_fin.

Lemma scan_inv_initialize lib w : scan_inv w -> scan_inv (exec (initialize lib) w).
Proof. scan_brute. Qed.

Lemma scan_inv_setCallbacks w : scan_inv w -> scan_inv (exec setCallbacks w).
Proof. scan_brute. Qed.

Lemma scan_inv_stopScan w : scan_inv w -> scan_inv (exec stopScan w).
Proof. scan_brute. Qed.

(** After [stopScan] nothing scans any more. *)
Lemma stopScan_clears w :
  (isScanning (svc w) = true -> manager (svc w) = true) ->
  (nativeScan w = true -> isScanning (svc w) = true) ->
  isScanning (svc (exec stopScan w)) = false /\ nativeScan (exec stopScan w) = false.
Proof.
  intros I1 I2.
  destruct w as [[mgr dev scanning cb init err] dl clk tos ns lk cn mon pi dead].
  simpl in *. ble_unfold; ble_simpl.
  destruct mgr, scanning, ns; simpl; split; try reflexivity;
    try (specialize (I1 eq_refl)); try (specialize (I2 eq_refl)); congruence.
Qed.

Lemma scan_inv_connectToDevice deviceId c d m w :
  scan_inv w -> scan_inv (exec (connectToDevice deviceId c d m) w).
Proof. scan_brute. Qed.

Lemma scan_inv_disconnect c w : scan_inv w -> scan_inv (exec (disconnect c) w).
Proof. scan_brute. Qed.

Lemma scan_inv_onDisconnected w : scan_inv w -> scan_inv (exec onDisconnected w).
Proof. scan_brute. Qed.

Lemma scan_inv_monitorListener r date w :
  scan_inv w -> scan_inv (exec (monitorListener r date) w).
Proof. scan_brute. Qed.

Lemma scan_inv_pollTick services date w :
  scan_inv w -> scan_inv (exec (pollTick services date) w).
Proof. scan_brute. Qed.

Lemma scan_inv_scanListener r w : scan_inv w -> scan_inv (exec (scanListener r) w).
Proof. scan_brute. Qed.

Lemma scan_inv_startScan timeoutMs env o w :
  scan_inv w -> scan_inv (exec (startScan timeoutMs env o) w).
Proof.
  intros Hinv. unfold exec, startScan. rewrite bind_eq. unfold this at 1 2. simpl.
  destruct (negb (manager (svc w)) || isScanning (svc w)) eqn:Hguard; [exact Hinv |].
  rewrite bind_eq.
  destruct (checkPermissions_frame env w) as [l Hl]. unfold exec in Hl. rewrite Hl.
  destruct (fst (checkPermissions env w)); simpl;
    [| apply scan_inv_delivered, Hinv].
  apply orb_false_iff in Hguard as [Hm Hs]. apply negb_false_iff in Hm.
  destruct Hinv as [I1 I2 I3 I4].
  destruct w as [[mgr dev scanning cb init err] dl clk tos ns lk cn mon pi dead].
  simpl in *. subst mgr scanning.
  destruct o; ble_unfold; ble_simpl; ble_cases; scan_fin.
  - exists (clk + Z.max 0 timeoutMs). split; [apply in_or_app; simpl; auto | lia].
  - apply in_app_or in H as [H | [<- | []]]; [auto | lia].
Qed.

Lemma scan_inv_destroy c w : scan_inv w -> scan_inv (exec (destroy c) w).
Proof.
  intros [I1 I2 I3 I4].
  destruct w as [[mgr dev scanning cb init err] dl clk tos ns lk cn mon pi dead].
  simpl in *.
  destruct mgr, scanning, ns;
    try (specialize (I1 eq_refl); discriminate I1);
    try (specialize (I2 eq_refl); discriminate I2);
    ble_unfold; ble_simpl; ble_cases; scan_fin.
Qed.

Lemma scan_inv_step a w w' : scan_inv w -> step a w = Some w' -> scan_inv w'.
Proof.
  intros Hinv Hstep. destruct a; simpl in Hstep;
    repeat match type of Hstep with
           | (if ?c then _ else _) = _ => destruct c eqn:?
           end;
    try discriminate Hstep; injection Hstep as <-.
  - apply scan_inv_initialize, Hinv.
  - apply scan_inv_setCallbacks, Hinv.
  - apply scan_inv_startScan, Hinv.
  - apply scan_inv_stopScan, Hinv.
  - apply scan_inv_connectToDevice, Hinv.
  - apply scan_inv_disconnect, Hinv.
  - apply scan_inv_destroy, Hinv.
  - apply scan_inv_scanListener, Hinv.
  - apply scan_inv_monitorListener, Hinv.
  - apply scan_inv_onDisconnected. destruct Hinv; split; assumption.
  - apply scan_inv_pollTick, Hinv.
  - apply andb_true_iff in Heqb as [Hclk Hall].
    destruct Hinv as [I1 I2 I3 I4]. split; simpl; auto.
    intros due Hin. rewrite forallb_forall in Hall.
    apply Z.leb_le, Hall, Hin.
  - destruct Hinv as [I1 I2 I3 I4].
    destruct w as [[mgr dev scanning cb init err] dl clk tos ns lk cn mon pi dead].
    simpl in *.
    destruct mgr, scanning, ns;
      try (specialize (I1 eq_refl); discriminate I1);
      try (specialize (I2 eq_refl); discriminate I2);
      ble_unfold; ble_simpl; scan_fin; eauto using In_removeFirst.
Qed.

Lemma scan_inv_run actions : forall w w',
  scan_inv w -> run actions w = Some w' -> scan_inv w'.
Proof.
  induction actions as [| a actions IH]; intros w w' Hinv Hrun; simpl in Hrun.
  - injection Hrun as <-. exact Hinv.
  - destruct (step a w) as [w1 |] eqn:Hstep; [| discriminate].
    eapply IH; [eapply scan_inv_step; eassumption | exact Hrun].
Qed.

Lemma scan_inv_reachable w : reachable w -> scan_inv w.
Proof.
  intros (t0 & actions & Hrun).
  eapply scan_inv_run; [apply scan_inv_initial | exact Hrun].
Qed.

Ltac no_device_brute :=
  intros w;
  destruct w as [[mgr dev scanning cb init err] dl clk tos ns lk cn mon pi dead];
  ble_unfold; ble_simpl; ble_cases;
  (first [ exists []; split; [symmetry; apply app_nil_r |]
         | rewrite <- ?app_assoc; eexists; split; [reflexivity |] ]);
  let Hin := fresh "Hin" in
  intros ? Hin; simpl in Hin;
  repeat (destruct Hin as [Hin | Hin]; [discriminate Hin |]); exact Hin.

Lemma initialize_no_device lib : delivers_no_device (initialize lib).
Proof. no_device_brute. Qed.
Lemma setCallbacks_no_device : delivers_no_device setCallbacks.
Proof. no_device_brute. Qed.
Lemma stopScan_no_device : delivers_no_device stopScan.
Proof. no_device_brute. Qed.
Lemma checkPermissions_no_device env : delivers_no_device (checkPermissions env).
Proof. no_device_brute. Qed.
Lemma connectToDevice_no_device deviceId c d m :
  delivers_no_device (connectToDevice deviceId c d m).
Proof. no_device_brute. Qed.
Lemma disconnect_no_device c : delivers_no_device (disconnect c).
Proof. no_device_brute. Qed.
Lemma destroy_no_device c : delivers_no_device (destroy c).
Proof. no_device_brute. Qed.
Lemma onDisconnected_no_device : delivers_no_device onDisconnected.
Proof. no_device_brute. Qed.
Lemma monitorListener_no_device r date : delivers_no_device (monitorListener r date).
Proof. no_device_brute. Qed.
Lemma pollTick_no_device services date : delivers_no_device (pollTick services date).
Proof. no_device_brute. Qed.

Lemma startScan_no_device timeoutMs env o : delivers_no_device (startScan timeoutMs env o).
Proof.
  intros w. unfold exec, startScan. rewrite bind_eq. unfold this at 1 2. simpl.
  destruct (negb (manager (svc w)) || isScanning (svc w)).
  { exists []. split; [symmetry; apply app_nil_r | intros d []]. }
  rewrite bind_eq.
  destruct (checkPermissions_no_device env w) as (evs & Hevs & Hno).
  destruct (checkPermissions_frame env w) as [l Hl].
  unfold exec in Hevs, Hl. rewrite Hl in *. simpl in Hevs. subst l.
  destruct (fst (checkPermissions env w)); simpl; [| exists evs; auto].
  destruct w as [[mgr dev scanning cb init err] dl clk tos ns lk cn mon pi dead].
  simpl in *.
  destruct o; ble_unfold; ble_simpl; ble_cases;
    try (exists evs; split; [reflexivity | exact Hno]).
  exists (evs ++ [onError "Failed to start scanning"])%list.
  split; [symmetry; apply app_assoc |].
  intros d Hin. apply in_app_or in Hin as [Hin | [Hin | []]];
    [exact (Hno d Hin) | discriminate Hin].
Qed.

Lemma no_device_new_events {A : Type} (m : M A) w w0 d :
  delivers_no_device m -> delivered w0 = delivered w ->
  ~ In (onDeviceFound d) (drop (length (delivered w)) (delivered (exec m w0))).
Proof.
  intros Hm Hd. destruct (Hm w0) as (evs & -> & Hno).
  rewrite Hd, drop_app_length. apply Hno.
Qed.

(** Only the scan listener delivers device-found events, and the
    library calls it only while its scan is running. *)
Lemma device_found_only_while_scanning a w w' d :
  step a w = Some w' ->
  In (onDeviceFound d) (drop (length (delivered w)) (delivered w')) ->
  (exists r, a = ScanCallback r) /\ nativeScan w = true.
Proof.
  intros Hstep Hin. destruct a; simpl in Hstep;
    repeat match type of Hstep with
           | (if ?c then _ else _) = _ => destruct c eqn:?
           end;
    try discriminate Hstep; injection Hstep as <-;
    try (split; [exists r; reflexivity | reflexivity]);
    exfalso; revert Hin.
  - apply no_device_new_events; [apply initialize_no_device | reflexivity].
  - apply no_device_new_events; [apply setCallbacks_no_device | reflexivity].
  - apply no_device_new_events; [apply startScan_no_device | reflexivity].
  - apply no_device_new_events; [apply stopScan_no_device | reflexivity].
  - apply no_device_new_events; [apply connectToDevice_no_device | reflexivity].
  - apply no_device_new_events; [apply disconnect_no_device | reflexivity].
  - apply no_device_new_events; [apply destroy_no_device | reflexivity].
  - apply no_device_new_events; [apply monitorListener_no_device | reflexivity].
  - apply no_device_new_events; [apply onDisconnected_no_device | reflexivity].
  - apply no_device_new_events; [apply pollTick_no_device | reflexivity].
  - simpl. rewrite drop_all. intros [].
  - apply no_device_new_events; [apply stopScan_no_device | reflexivity].
Qed.

Lemma startScan_opens timeoutMs env w :
  0 <= timeoutMs ->
  isScanning (svc w) = false ->
  let w1 := exec (startScan timeoutMs env (Returns tt)) w in
  isScanning (svc w1) = true ->
  nativeScan w1 = true
  /\ clock w1 = clock w
  /\ scanDeadline w1 = clock w + timeoutMs
  /\ In (clock w + timeoutMs) (timeouts w1).
Proof.
  intros HT Hidle. unfold exec, startScan. rewrite bind_eq. unfold this at 1 2. simpl.
  destruct (negb (manager (svc w)) || isScanning (svc w)); [simpl; congruence |].
  rewrite bind_eq.
  destruct (checkPermissions_frame env w) as [l Hl]. unfold exec in Hl. rewrite Hl.
  destruct (fst (checkPermissions env w)); simpl; [| congruence].
  destruct w as [[mgr dev scanning cb init err] dl clk tos ns lk cn mon pi dead].
  simpl in *. ble_unfold; ble_simpl. intros _.
  rewrite Z.max_r by lia.
  repeat split. apply in_or_app. simpl. auto.
Qed.

(** C9. In every world the service can reach, with timers firing when
    they are due: while the scanning flag is set or the library scans,
    the clock has not passed [start + timeout] of the latest scan; a scan
    opened now with timeout [T >= 0] has deadline [now + T] and a pending
    timeout at that instant; the clock cannot move past a pending
    timeout, and a timeout that fires clears the flag and stops the
    library scan; a device-found event is delivered only by the scan
    listener while the library scans, hence not after the deadline,
    whether or not any device was ever seen; and both an explicit
    [stopScan] and a scan error clear the flag and stop the library
    scan. *)
Theorem scan_ends_by_timeout (w : World) (Hreach : reachable w) :
  (isScanning (svc w) = true \/ nativeScan w = true -> clock w <= scanDeadline w)
  /\ (forall timeoutMs env,
        0 <= timeoutMs -> isScanning (svc w) = false ->
        let w1 := exec (startScan timeoutMs env (Returns tt)) w in
        isScanning (svc w1) = true ->
        nativeScan w1 = true /\ clock w1 = clock w
        /\ scanDeadline w1 = clock w + timeoutMs
        /\ In (clock w + timeoutMs) (timeouts w1))
  /\ (forall t w', step (ClockAdvance t) w = Some w' ->
        forall due, In due (timeouts w) -> t <= due)
  /\ (forall due w', step (TimeoutFires due) w = Some w' ->
        In due (timeouts w)
        /\ isScanning (svc w') = false /\ nativeScan w' = false)
  /\ (forall a w' d, step a w = Some w' ->
        In (onDeviceFound d) (drop (length (delivered w)) (delivered w')) ->
        (exists r, a = ScanCallback r) /\ nativeScan w = true
        /\ clock w <= scanDeadline w)
  /\ (isScanning (svc (exec stopScan w)) = false
      /\ nativeScan (exec stopScan w) = false)
  /\ (forall message,
        let w' := exec (scanListener (ScanFailed message)) w in
        isScanning (svc w') = false /\ nativeScan w' = false
        /\ (callbacks (svc w) = true ->
            delivered w' = (delivered w ++ [onError ("Scan error: " ++ message)])%list)).
Proof.
  pose proof (scan_inv_reachable w Hreach) as Hinv.
  assert (Hclock : isScanning (svc w) = true \/ nativeScan w = true ->
                   clock w <= scanDeadline w).
  { destruct Hinv as [I1 I2 I3 I4]. intros Hs.
    assert (Hscan : isScanning (svc w) = true) by (destruct Hs; auto).
    destruct (I3 Hscan) as (due & Hin & Hle). specialize (I4 due Hin). lia. }
  split; [exact Hclock |].
  split; [intros T env HT Hidle; apply startScan_opens; assumption |].
  split.
  { intros t w' Hstep due Hin. simpl in Hstep.
    destruct ((clock w <=? t) && forallb (fun due => t <=? due) (timeouts w)) eqn:E;
      [| discriminate].
    apply andb_true_iff in E as [_ Hall]. rewrite forallb_forall in Hall.
    apply Z.leb_le, Hall, Hin. }
  split.
  { intros due w' Hstep. simpl in Hstep.
    destruct (memZ due (timeouts w) && (due <=? clock w)) eqn:E; [| discriminate].
    injection Hstep as <-.
    apply andb_true_iff in E as [Hmem _].
    split.
    - unfold memZ in Hmem. apply existsb_exists in Hmem as (x & Hx & Heq).
      apply Z.eqb_eq in Heq. subst x. exact Hx.
    - destruct Hinv as [I1 I2 _ _]. apply stopScan_clears; simpl; assumption. }
  split.
  { intros a w' d Hstep Hin.
    destruct (device_found_only_while_scanning a w w' d Hstep Hin) as [Ha Hn].
    auto. }
  split; [destruct Hinv as [I1 I2 _ _]; apply stopScan_clears; assumption |].
  intros message w'. subst w'. destruct Hinv as [I1 I2 _ _].
  destruct w as [[mgr dev scanning cb init err] dl clk tos ns lk cn mon pi dead].
  simpl in *. ble_unfold; ble_simpl.
  destruct mgr, scanning, ns;
    try (specialize (I1 eq_refl); discriminate I1);
    try (specialize (I2 eq_refl); discriminate I2);
    destruct cb; simpl; repeat split; try reflexivity; discriminate.
Qed.

Lemma scan_ends_by_timeout_witness :
  reachable scanningWorld
  /\ isScanning (svc scanningWorld) = true
  /\ timeouts scanningWorld = [10000]
  /\ clock scanningWorld <= scanDeadline scanningWorld
  /\ step (ClockAdvance 10001) scanningWorld = None
  /\ (forall w', step (TimeoutFires 10000) scanningWorld = Some w' ->
      isScanning (svc w') = false /\ nativeScan w' = false).
Proof.
  assert (Hreach : reachable scanningWorld).
  { exists 0, [CallInitialize (Returns true); CallSetCallbacks;
               CallStartScan 10000 iosGate (Returns tt)].
    reflexivity. }
  destruct (scan_ends_by_timeout scanningWorld Hreach)
    as (Hclock & _ & _ & Hfire & _).
  split; [exact Hreach |].
  split; [reflexivity |].
  split; [reflexivity |].
  split; [apply Hclock; left; reflexivity |].
  split; [reflexivity |].
  intros w' Hstep. apply (Hfire 10000 w' Hstep).
Defined.

(** ** Connection lifecycle *)

(** C8. In every connected state with a callback bundle registered, the
    disconnect observer clears the active device, delivers exactly one
    [onConnectionStateChange(false)] and no [onError], and changes nothing
    else; the library can fire it whenever the link is up. *)
Theorem remote_disconnect_event (w : World) (d : Device.t)
    (Hconn : device (svc w) = Some d) (Hcb : callbacks (svc w) = true) :
  let w' := exec onDisconnected w in
  device (svc w') = None
  /\ isConnected_service (svc w') = false
  /\ emitted onDisconnected w = [onConnectionStateChange false None]
  /\ (forall message, ~ In (onError message) (emitted onDisconnected w))
  /\ w' = set_delivered (delivered w ++ [onConnectionStateChange false None])
            (with_svc (set_device None) w)
  /\ (link w = true -> step DisconnectedCallback w = Some (set_link false w')).
Proof.
  destruct w as [[mgr dev scanning cb init err] dl clk tos ns lk cn mon pi dead].
  simpl in *. subst cb. ble_unfold; ble_simpl.
  rewrite drop_app_length.
  repeat split.
  - intros message [H | []]. discriminate H.
  - intros ->. reflexivity.
Qed.

Lemma remote_disconnect_event_witness :
  device (svc pollingWorld) = Some sensor
  /\ emitted onDisconnected pollingWorld = [onConnectionStateChange false None]
  /\ device (svc (exec onDisconnected pollingWorld)) = None.
Proof.
  destruct (remote_disconnect_event pollingWorld sensor eq_refl eq_refl)
    as (Hdev & _ & Hev & _).
  split; [reflexivity | split; [exact Hev | exact Hdev]].
Defined.

(** C5, evaluated on the code. When the transport connection is
    established and the enumeration then throws, [connectToDevice]
    returns [false] and delivers one [onError] and no
    [onConnectionStateChange]; but [this.device] keeps the device, so
    [isConnected()] answers [true]. *)
Theorem connect_enumeration_failure (w : World) (deviceId : string) (d : Device.t)
    (message : string) (monitor : Outcome unit)
    (Hm : manager (svc w) = true) (Hcb : callbacks (svc w) = true) :
  let attempt := connectToDevice deviceId (Returns d) (Throws message) monitor in
  result attempt w = false
  /\ emitted attempt w = [onError ("Connection failed: " ++ message)]
  /\ device (svc (exec attempt w)) = Some d
  /\ isConnected_service (svc (exec attempt w)) = true.
Proof.
  destruct w as [[mgr dev scanning cb init err] dl clk tos ns lk cn mon pi dead].
  simpl in *. subst mgr cb. ble_unfold; ble_simpl.
  destruct scanning; ble_simpl; rewrite drop_app_length; repeat split.
Qed.

Lemma connect_enumeration_failure_witness :
  let attempt :=
    connectToDevice "AA:BB" (Returns sensor) (Throws "timeout") (Returns tt) in
  isConnected_service (svc idleWorld) = false
  /\ result attempt idleWorld = false
  /\ emitted attempt idleWorld = [onError "Connection failed: timeout"]
  /\ isConnected_service (svc (exec attempt idleWorld)) = true.
Proof.
  intros attempt.
  destruct (connect_enumeration_failure idleWorld "AA:BB" sensor "timeout" (Returns tt)
              eq_refl eq_refl) as (Hr & He & _ & Hc).
  split; [reflexivity | split; [exact Hr | split; [exact He | exact Hc]]].
Defined.

(** Against C6 as stated: with no connection active, [disconnect()]
    still delivers [onConnectionStateChange(false)] to the registered
    bundle, so it is not without effect. *)
Lemma disconnect_when_idle_emits :
  device (svc idleWorld) = None
  /\ emitted (disconnect (Returns tt)) idleWorld = [onConnectionStateChange false None]
  /\ exec (disconnect (Returns tt)) idleWorld <> idleWorld.
Proof.
  split; [reflexivity |]. split; [reflexivity |]. discriminate.
Qed.

(** C6, as the code has it. [disconnect()] always ends with no active
    device and delivers exactly one [onConnectionStateChange(false)] to a
    registered bundle, and never an [onError], whether or not a
    connection was active and whether or not the cancellation throws.
    With no connection active nothing else changes and no cancellation
    is requested. With a connection active it requests the cancellation
    once and clears the device. A second [disconnect()] leaves the
    service and the number of cancellations as the first left them. *)
Theorem disconnect_behaviour (w : World) (c : Outcome unit) :
  let w' := exec (disconnect c) w in
  emitted (disconnect c) w
  = (if callbacks (svc w) then [onConnectionStateChange false None] else [])
  /\ (forall message, ~ In (onError message) (emitted (disconnect c) w))
  /\ device (svc w') = None
  /\ (device (svc w) = None -> set_delivered (delivered w) w' = w)
  /\ (forall d, device (svc w) = Some d ->
        set_delivered (delivered w) w'
        = set_cancellations (S (cancellations w)) (with_svc (set_device None) w))
  /\ (forall c2, svc (exec (disconnect c2) w') = svc w'
                 /\ cancellations (exec (disconnect c2) w') = cancellations w').
Proof.
  destruct w as [[mgr dev scanning cb init err] dl clk tos ns lk cn mon pi dead].
  ble_unfold; ble_simpl.
  destruct dev as [d0 |], c, cb; ble_simpl;
    rewrite ?drop_app_length, ?drop_all;
    (repeat split;
     [ intros msg Hin; simpl in Hin; intuition discriminate
     | try discriminate; try (intros; reflexivity) .. ]).
Qed.

Lemma disconnect_behaviour_witness :
  let w' := exec (disconnect (Throws "gone")) pollingWorld in
  cancellations pollingWorld = 0%nat
  /\ cancellations w' = 1%nat
  /\ device (svc w') = None
  /\ emitted (disconnect (Throws "gone")) pollingWorld
     = [onConnectionStateChange false None]
  /\ set_delivered (delivered w') (exec (disconnect (Returns tt)) w') = w'.
Proof.
  intros w'.
  destruct (disconnect_behaviour pollingWorld (Throws "gone")) as (He & _ & Hd & _).
  destruct (disconnect_behaviour w' (Returns tt)) as (_ & _ & _ & Hidle & _).
  split; [reflexivity |]. split; [reflexivity |].
  split; [exact Hd |]. split; [exact He |].
  apply Hidle. exact Hd.
Defined.

(** ** Polling *)

Lemma readCharacteristics_skip c rest date :
  skipped c -> readCharacteristics (c :: rest) date = readCharacteristics rest date.
Proof.
  intros [H | [(m & H) | [(v & H & Hv) | (v & bytes & H & Hd & Hlen)]]]; simpl.
  - rewrite H. reflexivity.
  - rewrite H. destruct (isReadable c); reflexivity.
  - rewrite H, Hv. destruct (isReadable c); reflexivity.
  - rewrite H. simpl. rewrite Hd.
    destruct bytes as [| ? [| ? [| ? [| ? ?]]]]; simpl in Hlen; try lia;
      destruct (isReadable c), (negb (String.eqb v "")); reflexivity.
Qed.

Lemma readCharacteristics_all_skipped cs date :
  Forall skipped cs -> readCharacteristics cs date = None.
Proof.
  induction 1 as [| c cs Hc _ IH]; [reflexivity |].
  rewrite readCharacteristics_skip by exact Hc. exact IH.
Qed.

Lemma readServices_cons service rest date :
  readServices (service :: rest) date
  = match characteristics service with
    | Throws m => Throws m
    | Returns cs =>
        match readCharacteristics cs date with
        | Some reading => Returns (Some reading)
        | None => readServices rest date
        end
    end.
Proof. reflexivity. Qed.

(** A pass over services none of which offers a successful read comes
    back empty. *)
Lemma readServices_all_skipped services date :
  Forall (fun s => exists cs, characteristics s = Returns cs /\ Forall skipped cs)
         services ->
  readServices services date = Returns None.
Proof.
  induction 1 as [| s services (cs & Hcs & Hskip) _ IH]; [reflexivity |].
  rewrite readServices_cons, Hcs, (readCharacteristics_all_skipped cs date Hskip).
  exact IH.
Qed.

(** Against C3 as stated: a cycle that finds no readable attribute is
    not retried on the next interval; it reports the error and clears the
    interval, after which no polling cycle runs. *)
Lemma poll_without_readable_aborts :
  let w' := exec (pollTick noReadable 1000) pollingWorld in
  pollInterval pollingWorld = true
  /\ emitted (pollTick noReadable 1000) pollingWorld
     = [onError
          "Unable to read sensor data from device. Please check your sensor configuration."]
  /\ pollInterval w' = false
  /\ step (PollInterval noReadable 2000) w' = None.
Proof. repeat split. Qed.

(** C3, as the code has it. Each firing of the one-second interval runs
    one enumeration pass over a connected device. Inside a pass, a
    characteristic that is not readable, whose read throws, that has no
    value or whose value resolves fewer than 4 bytes is stepped over and
    the pass goes on. A pass that reads data delivers the reading and
    leaves the interval running. A pass that completes with no
    successful read, which includes the pass that finds no readable
    attribute, delivers one error and clears the interval; so does a
    pass in which the enumeration throws. Once cleared, the interval
    fires no more. *)
Theorem polling_pass_outcomes (w : World) (d : Device.t) (date : Z)
    (Hdev : device (svc w) = Some d) (Hcb : callbacks (svc w) = true)
    (Hpoll : pollInterval w = true) :
  (forall c rest, skipped c ->
     readCharacteristics (c :: rest) date = readCharacteristics rest date)
  /\ (forall services,
        Forall (fun s => exists cs, characteristics s = Returns cs /\ Forall skipped cs)
               services ->
        readServices services date = Returns None)
  /\ (forall services reading,
        readServices services date = Returns (Some reading) ->
        emitted (pollTick (Returns services) date) w = [onDataReceived reading]
        /\ pollInterval (exec (pollTick (Returns services) date) w) = true)
  /\ (forall services,
        readServices services date = Returns None ->
        emitted (pollTick (Returns services) date) w
        = [onError
             "Unable to read sensor data from device. Please check your sensor configuration."]
        /\ pollInterval (exec (pollTick (Returns services) date) w) = false)
  /\ (forall services message,
        readServices services date = Throws message ->
        emitted (pollTick (Returns services) date) w
        = [onError "Error reading from device"]
        /\ pollInterval (exec (pollTick (Returns services) date) w) = false)
  /\ (forall message,
        emitted (pollTick (Throws message) date) w
        = [onError "Error reading from device"]
        /\ pollInterval (exec (pollTick (Throws message) date) w) = false)
  /\ (forall w' services date',
        pollInterval w' = false -> step (PollInterval services date') w' = None).
Proof.
  split; [intros c rest; apply readCharacteristics_skip |].
  split; [intros services; apply readServices_all_skipped |].
  assert (Hoff : forall w' services date',
            pollInterval w' = false -> step (PollInterval services date') w' = None)
    by (intros w' services date' Hoff; simpl; rewrite Hoff; reflexivity).
  destruct w as [[mgr dev scanning cb init err] dl clk tos ns lk cn mon pi dead].
  simpl in *. subst dev cb pi.
  repeat split; try apply Hoff; ble_unfold; ble_simpl;
    try match goal with H : readServices _ _ = _ |- _ => rewrite H end;
    ble_simpl; rewrite ?drop_app_length; reflexivity.
Qed.

Lemma polling_pass_outcomes_witness :
  device (svc pollingWorld) = Some sensor
  /\ callbacks (svc pollingWorld) = true
  /\ pollInterval pollingWorld = true
  /\ emitted (pollTick (Returns [goodService]) 1000) pollingWorld
     = [onDataReceived {| voltage := JNum (5 # 2); current := JNum (6 # 5);
                          temperature := JNum (109 # 10); ph := JNum (36 # 5);
                          timestamp := 1000 |}]
  /\ pollInterval (exec (pollTick (Returns [goodService]) 1000) pollingWorld) = true
  /\ pollInterval (exec (pollTick (Throws "gatt") 1000) pollingWorld) = false.
Proof.
  destruct (polling_pass_outcomes pollingWorld sensor 1000 eq_refl eq_refl eq_refl)
    as (_ & _ & Hdata & _ & _ & Hthrow & _).
  destruct (Hdata [goodService] _ eq_refl) as [He Hp].
  destruct (Hthrow "gatt") as [_ Ht].
  repeat split; assumption.
Defined.

(** * Further properties of the code *)

(** ** The decoder inverts the transport encoding *)

Lemma in_rangeZ (n : nat) (z : Z) : 0 <= z < Z.of_nat n -> In z (rangeZ n).
Proof.
  intros H. unfold rangeZ. apply in_map_iff. exists (Z.to_nat z).
  split; [lia | apply in_seq; lia].
Qed.

Lemma forall_rangeZ (P : Z -> bool) (n : nat) :
  forallb P (rangeZ n) = true -> forall z, 0 <= z < Z.of_nat n -> P z = true.
Proof.
  intros H z Hz. rewrite forallb_forall in H. apply H, in_rangeZ, Hz.
Qed.

Lemma forall2_rangeZ (P : Z -> Z -> bool) (n m : nat) :
  forallb (fun a => forallb (P a) (rangeZ m)) (rangeZ n) = true ->
  forall a b, 0 <= a < Z.of_nat n -> 0 <= b < Z.of_nat m -> P a b = true.
Proof.
  intros H a b Ha Hb.
  apply (forall_rangeZ (P a) m); [| exact Hb].
  apply (forall_rangeZ (fun a => forallb (P a) (rangeZ m)) n H a Ha).
Qed.

(** The 64 characters of the alphabet sit at their own index, and none
    is the padding character. *)
Lemma sextet_index_check :
  forallb (fun k => (indexOf chars (Some (sextet k)) =? k)
                    && negb (isPad (Some (sextet k)))) (rangeZ 64) = true.
Proof. vm_compute. reflexivity. Qed.

Lemma sextet_index (k : Z) :
  0 <= k < 64 ->
  indexOf chars (Some (sextet k)) = k /\ isPad (Some (sextet k)) = false.
Proof.
  intros Hk.
  pose proof (forall_rangeZ _ 64 sextet_index_check k Hk) as H. simpl in H.
  apply andb_true_iff in H as [H1 H2].
  split; [apply Z.eqb_eq, H1 | apply negb_true_iff, H2].
Qed.

Lemma bits_first_check :
  forallb (fun a => forallb (bits_first_test a) (rangeZ 256)) (rangeZ 256) = true.
Proof. vm_compute. reflexivity. Qed.

Lemma bits_second_check :
  forallb (fun b => forallb (bits_second_test b) (rangeZ 256)) (rangeZ 256) = true.
Proof. vm_compute. reflexivity. Qed.

(** The first two sextets are in range and give the first byte back. *)
Lemma bits_first (a b : Z) :
  isByte a -> isByte b ->
  let s1 := Z.shiftr a 2 in
  let s2 := Z.lor (Z.shiftl (Z.land a 3) 4) (Z.shiftr b 4) in
  (0 <= s1 < 64) /\ (0 <= s2 < 64)
  /\ Z.lor (Z.shiftl s1 2) (Z.shiftr s2 4) mod 256 = a
  /\ Z.land s2 15 = Z.shiftr b 4.
Proof.
  intros Ha Hb.
  pose proof (forall2_rangeZ _ 256 256 bits_first_check a b Ha Hb) as H.
  unfold bits_first_test in H. cbv zeta in H.
  repeat (apply andb_true_iff in H as [H ?]).
  cbv zeta. lia.
Qed.

(** The last two sextets are in range and give the second and third
    byte back. *)
Lemma bits_second (b c : Z) :
  isByte b -> isByte c ->
  let s3 := Z.lor (Z.shiftl (Z.land b 15) 2) (Z.shiftr c 6) in
  let s4 := Z.land c 63 in
  (0 <= s3 < 64) /\ (0 <= s4 < 64)
  /\ Z.lor (Z.shiftl (Z.shiftr b 4) 4) (Z.shiftr s3 2) mod 256 = b
  /\ Z.lor (Z.shiftl (Z.land s3 3) 6) s4 mod 256 = c.
Proof.
  intros Hb Hc.
  pose proof (forall2_rangeZ _ 256 256 bits_second_check b c Hb Hc) as H.
  unfold bits_second_test in H. cbv zeta in H.
  repeat (apply andb_true_iff in H as [H ?]).
  cbv zeta. lia.
Qed.

Lemma length_string_of_list (l : list ascii) :
  String.length (string_of_list_ascii l) = length l.
Proof. induction l as [| c l IH]; simpl; [reflexivity | rewrite IH; reflexivity]. Qed.

Lemma get_string_of_list (l : list ascii) : forall n,
  String.get n (string_of_list_ascii l) = l !! n.
Proof.
  induction l as [| c l IH]; intros [| n]; simpl; try reflexivity. apply IH.
Qed.

(** The character [k] places after a prefix. *)
Lemma charAt_after (pre l : list ascii) (k : nat) :
  charAt (string_of_list_ascii (pre ++ l)) (Z.of_nat (length pre) + Z.of_nat k)
  = l !! k.
Proof.
  unfold charAt.
  destruct (Z.ltb_spec (Z.of_nat (length pre) + Z.of_nat k) 0) as [H | _]; [lia |].
  rewrite get_string_of_list.
  replace (Z.to_nat (Z.of_nat (length pre) + Z.of_nat k)) with (length pre + k)%nat by lia.
  rewrite lookup_app_r by lia. f_equal. lia.
Qed.

Lemma storeUint8_after (done mid : list Z) (k : nat) (v : Z) :
  storeUint8 (done ++ mid) (length done + k) v = (done ++ <[k := v mod 256]> mid)%list.
Proof. unfold storeUint8. apply insert_app_r. Qed.

Lemma list_ind3 {A : Type} (P : list A -> Prop) :
  P [] -> (forall a, P [a]) -> (forall a b, P [a; b]) ->
  (forall a b c l, P l -> P (a :: b :: c :: l)) ->
  forall l, P l.
Proof.
  intros H0 H1 H2 H3.
  fix IH 1. intros [| a [| b [| c l]]];
    [exact H0 | exact (H1 a) | exact (H2 a b) | exact (H3 a b c l (IH l))].
Qed.

Lemma store_0 (done tl : list Z) (x v : Z) :
  storeUint8 (done ++ x :: tl) (length done) v = (done ++ v mod 256 :: tl)%list.
Proof.
  replace (length done) with (length done + 0)%nat at 1 by lia.
  apply storeUint8_after.
Qed.

Lemma store_1 (done tl : list Z) (x0 x v : Z) :
  storeUint8 (done ++ x0 :: x :: tl) (S (length done)) v
  = (done ++ x0 :: v mod 256 :: tl)%list.
Proof.
  replace (S (length done)) with (length done + 1)%nat by lia.
  apply storeUint8_after.
Qed.

Lemma store_2 (done tl : list Z) (x0 x1 x v : Z) :
  storeUint8 (done ++ x0 :: x1 :: x :: tl) (S (S (length done))) v
  = (done ++ x0 :: x1 :: v mod 256 :: tl)%list.
Proof.
  replace (S (S (length done))) with (length done + 2)%nat by lia.
  apply storeUint8_after.
Qed.

Lemma pad_index :
  indexOf chars (Some "="%char) = -1 /\ isPad (Some "="%char) = true.
Proof. split; reflexivity. Qed.

Lemma group_chars (pre : list ascii) (c0 c1 c2 c3 : ascii) (tl : list ascii) :
  let s := string_of_list_ascii (pre ++ c0 :: c1 :: c2 :: c3 :: tl) in
  let i := Z.of_nat (length pre) in
  charAt s i = Some c0 /\ charAt s (i + 1) = Some c1
  /\ charAt s (i + 2) = Some c2 /\ charAt s (i + 3) = Some c3.
Proof.
  intros s i.
  pose proof (charAt_after pre (c0 :: c1 :: c2 :: c3 :: tl) 0) as H0.
  rewrite Z.add_0_r in H0.
  pose proof (charAt_after pre (c0 :: c1 :: c2 :: c3 :: tl) 1) as H1.
  pose proof (charAt_after pre (c0 :: c1 :: c2 :: c3 :: tl) 2) as H2.
  pose proof (charAt_after pre (c0 :: c1 :: c2 :: c3 :: tl) 3) as H3.
  auto.
Qed.

Ltac sextet_rewrite :=
  repeat match goal with
         | H : 0 <= ?k < 64 |- context [indexOf chars (Some (sextet ?k))] =>
             rewrite (proj1 (sextet_index k H))
         | H : 0 <= ?k < 64 |- context [isPad (Some (sextet ?k))] =>
             rewrite (proj2 (sextet_index k H))
         end.

Lemma not_minus_one (k : Z) : 0 <= k < 64 -> negb (k =? -1) = true.
Proof. intros H. destruct (Z.eqb_spec k (-1)); [lia | reflexivity]. Qed.

(** One full group: three bytes. *)
Lemma decodeGroup_three (pre tl : list ascii) (a b c : Z) (done rest : list Z) :
  isByte a -> isByte b -> isByte c ->
  decodeGroup
    (string_of_list_ascii
       (pre ++ sextet (Z.shiftr a 2)
            :: sextet (Z.lor (Z.shiftl (Z.land a 3) 4) (Z.shiftr b 4))
            :: sextet (Z.lor (Z.shiftl (Z.land b 15) 2) (Z.shiftr c 6))
            :: sextet (Z.land c 63) :: tl))
    (Z.of_nat (length pre)) (length done) (done ++ 0 :: 0 :: 0 :: rest)
  = ((done ++ a :: b :: c :: rest)%list, S (S (S (length done)))).
Proof.
  intros Ha Hb Hc.
  destruct (bits_first a b Ha Hb) as (R1 & R2 & E1 & E2).
  destruct (bits_second b c Hb Hc) as (R3 & R4 & E3 & E4).
  match goal with
  | |- decodeGroup (string_of_list_ascii (pre ++ ?c0 :: ?c1 :: ?c2 :: ?c3 :: tl)) _ _ _ = _ =>
      destruct (group_chars pre c0 c1 c2 c3 tl) as (C0 & C1 & C2 & C3)
  end.
  unfold decodeGroup. rewrite C0, C1, C2, C3. sextet_rewrite.
  rewrite !not_minus_one by assumption. simpl andb. cbv iota.
  rewrite store_0, store_1, store_2, E1, E2, E3, E4. reflexivity.
Qed.

(** A final group of two bytes, with one padding character. *)
Lemma decodeGroup_two (pre tl : list ascii) (a b : Z) (done rest : list Z) :
  isByte a -> isByte b ->
  decodeGroup
    (string_of_list_ascii
       (pre ++ sextet (Z.shiftr a 2)
            :: sextet (Z.lor (Z.shiftl (Z.land a 3) 4) (Z.shiftr b 4))
            :: sextet (Z.shiftl (Z.land b 15) 2)
            :: "="%char :: tl))
    (Z.of_nat (length pre)) (length done) (done ++ 0 :: 0 :: rest)
  = ((done ++ a :: b :: rest)%list, S (S (length done))).
Proof.
  intros Ha Hb.
  assert (H0 : isByte 0) by (unfold isByte; lia).
  destruct (bits_first a b Ha Hb) as (R1 & R2 & E1 & E2).
  destruct (bits_second b 0 Hb H0) as (R3 & _ & E3 & _).
  change (Z.shiftr 0 6) with 0 in R3, E3. rewrite Z.lor_0_r in R3, E3.
  match goal with
  | |- decodeGroup (string_of_list_ascii (pre ++ ?c0 :: ?c1 :: ?c2 :: ?c3 :: tl)) _ _ _ = _ =>
      destruct (group_chars pre c0 c1 c2 c3 tl) as (C0 & C1 & C2 & C3)
  end.
  unfold decodeGroup. rewrite C0, C1, C2, C3. sextet_rewrite.
  rewrite (proj1 pad_index), (proj2 pad_index).
  rewrite !not_minus_one by assumption. simpl andb. cbv iota.
  rewrite store_0, store_1, E1, E2, E3. reflexivity.
Qed.

(** A final group of one byte, with two padding characters. *)
Lemma decodeGroup_one (pre tl : list ascii) (a : Z) (done rest : list Z) :
  isByte a ->
  decodeGroup
    (string_of_list_ascii
       (pre ++ sextet (Z.shiftr a 2)
            :: sextet (Z.shiftl (Z.land a 3) 4)
            :: "="%char :: "="%char :: tl))
    (Z.of_nat (length pre)) (length done) (done ++ 0 :: rest)
  = ((done ++ a :: rest)%list, S (length done)).
Proof.
  intros Ha.
  assert (H0 : isByte 0) by (unfold isByte; lia).
  destruct (bits_first a 0 Ha H0) as (R1 & R2 & E1 & _).
  change (Z.shiftr 0 4) with 0 in R2, E1. rewrite Z.lor_0_r in R2, E1.
  match goal with
  | |- decodeGroup (string_of_list_ascii (pre ++ ?c0 :: ?c1 :: ?c2 :: ?c3 :: tl)) _ _ _ = _ =>
      destruct (group_chars pre c0 c1 c2 c3 tl) as (C0 & C1 & C2 & C3)
  end.
  unfold decodeGroup. rewrite C0, C1, C2, C3. sextet_rewrite.
  rewrite (proj1 pad_index), (proj2 pad_index).
  simpl andb. cbv iota.
  rewrite store_0, E1. reflexivity.
Qed.

Lemma decodeLoop_unfold (fuel : nat) (s : string) (i : Z) (p : nat) (bytes : list Z) :
  decodeLoop (S fuel) s i p bytes
  = if i <? Z.of_nat (String.length s)
    then let '(bytes', p') := decodeGroup s i p bytes in
         decodeLoop fuel s (i + 4) p' bytes'
    else Some bytes.
Proof. reflexivity. Qed.

(** The loop over the encoding of [bytes], started behind a prefix that
    was already consumed, fills the rest of the array with [bytes]. *)
Lemma decodeLoop_encoded : forall bytes,
  Forall isByte bytes ->
  forall (pre : list ascii) (done : list Z) (fuel : nat),
    (length (encodeChars bytes) < fuel)%nat ->
    decodeLoop fuel (string_of_list_ascii (pre ++ encodeChars bytes))
      (Z.of_nat (length pre)) (length done)
      (done ++ replicate (length bytes) 0)
    = Some (done ++ bytes)%list.
Proof.
  intros bytes.
  induction bytes as [| a | a b | a b c rest IH] using list_ind3;
    intros Hb pre done fuel Hfuel;
    (destruct fuel as [| fuel]; [simpl in Hfuel; lia |]);
    rewrite decodeLoop_unfold, length_string_of_list, length_app.
  - simpl. destruct (Z.ltb_spec (Z.of_nat (length pre)) (Z.of_nat (length pre + 0)));
      [lia | reflexivity].
  - apply Forall_cons in Hb as [Ha _].
    destruct (Z.ltb_spec (Z.of_nat (length pre))
                (Z.of_nat (length pre + length (encodeChars [a]))));
      [| simpl in *; lia].
    simpl encodeChars. simpl replicate. rewrite decodeGroup_one by assumption.
    destruct fuel as [| fuel]; [simpl in Hfuel; lia |].
    rewrite decodeLoop_unfold, length_string_of_list, length_app. simpl length.
    destruct (Z.ltb_spec (Z.of_nat (length pre) + 4) (Z.of_nat (length pre + 4)));
      [lia | reflexivity].
  - apply Forall_cons in Hb as [Ha Hb]. apply Forall_cons in Hb as [Hb _].
    destruct (Z.ltb_spec (Z.of_nat (length pre))
                (Z.of_nat (length pre + length (encodeChars [a; b]))));
      [| simpl in *; lia].
    simpl encodeChars. simpl replicate. rewrite decodeGroup_two by assumption.
    destruct fuel as [| fuel]; [simpl in Hfuel; lia |].
    rewrite decodeLoop_unfold, length_string_of_list, length_app. simpl length.
    destruct (Z.ltb_spec (Z.of_nat (length pre) + 4) (Z.of_nat (length pre + 4)));
      [lia | reflexivity].
  - apply Forall_cons in Hb as [Ha Hb]. apply Forall_cons in Hb as [Hb Hc].
    apply Forall_cons in Hc as [Hc Hrest].
    destruct (Z.ltb_spec (Z.of_nat (length pre))
                (Z.of_nat (length pre + length (encodeChars (a :: b :: c :: rest)))));
      [| simpl in *; lia].
    simpl encodeChars. simpl replicate. rewrite decodeGroup_three by assumption.
    set (group := [sextet (Z.shiftr a 2);
                   sextet (Z.lor (Z.shiftl (Z.land a 3) 4) (Z.shiftr b 4));
                   sextet (Z.lor (Z.shiftl (Z.land b 15) 2) (Z.shiftr c 6));
                   sextet (Z.land c 63)]).
    specialize (IH Hrest (pre ++ group)%list (done ++ [a; b; c])%list fuel).
    rewrite !length_app in IH. simpl length in IH.
    replace (Z.of_nat (length pre + 4)) with (Z.of_nat (length pre) + 4) in IH by lia.
    replace (length done + 3)%nat with (S (S (S (length done)))) in IH by lia.
    rewrite <- !app_assoc in IH. simpl app in IH.
    apply IH. simpl in Hfuel. lia.
Qed.

(** The end of an encoding: its length is a multiple of four, and its
    last two characters carry as many padding marks as bytes are missing
    from the last group. *)
Lemma encodeChars_end : forall bytes,
  Forall isByte bytes -> bytes <> [] ->
  exists (front : list ascii) (x y : ascii) (groups : nat),
    encodeChars bytes = (front ++ [x; y])%list
    /\ (length front + 2 = 4 * groups)%nat
    /\ (3 * groups
        = length bytes + Nat.b2n (isPad (Some x)) + Nat.b2n (isPad (Some y)))%nat.
Proof.
  intros bytes.
  induction bytes as [| a | a b | a b c rest IH] using list_ind3; intros Hb Hne.
  - contradiction.
  - eexists [_; _], _, _, 1%nat. simpl. repeat split.
  - apply Forall_cons in Hb as [Ha Hb]. apply Forall_cons in Hb as [Hb _].
    assert (H0 : isByte 0) by (unfold isByte; lia).
    destruct (bits_second b 0 Hb H0) as (R3 & _).
    change (Z.shiftr 0 6) with 0 in R3. rewrite Z.lor_0_r in R3.
    eexists [_; _], _, _, 1%nat. simpl encodeChars.
    split; [reflexivity |]. split; [reflexivity |].
    rewrite (proj2 (sextet_index _ R3)). reflexivity.
  - apply Forall_cons in Hb as [Ha Hb]. apply Forall_cons in Hb as [Hb Hc].
    apply Forall_cons in Hc as [Hc Hrest].
    destruct rest as [| r rest].
    + destruct (bits_second b c Hb Hc) as (R3 & R4 & _).
      eexists [_; _], _, _, 1%nat. simpl encodeChars.
      split; [reflexivity |]. split; [reflexivity |].
      rewrite (proj2 (sextet_index _ R3)), (proj2 (sextet_index _ R4)). reflexivity.
    + destruct (IH Hrest ltac:(discriminate)) as (front & x & y & g & E & Hl & Hg).
      eexists (_ :: _ :: _ :: _ :: front), x, y, (S g).
      change (encodeChars (a :: b :: c :: r :: rest))
        with (sextet (Z.shiftr a 2)
              :: sextet (Z.lor (Z.shiftl (Z.land a 3) 4) (Z.shiftr b 4))
              :: sextet (Z.lor (Z.shiftl (Z.land b 15) 2) (Z.shiftr c 6))
              :: sextet (Z.land c 63) :: encodeChars (r :: rest)).
      rewrite E. split; [reflexivity |]. simpl length in *. lia.
Qed.

Lemma bufferLength_encoded (bytes : list Z) :
  Forall isByte bytes ->
  let base64 := encodeBase64 bytes in
  let len := Z.of_nat (String.length base64) in
  let b0 := (inject_Z len * (3 # 4))%Q in
  let b1 := if isPad (charAt base64 (len - 1)) then (b0 - 1)%Q else b0 in
  let b2 := if isPad (charAt base64 (len - 2)) then (b1 - 1)%Q else b1 in
  ToIndex b2 = Some (length bytes).
Proof.
  intros Hb. destruct bytes as [| b bytes']; [reflexivity |].
  destruct (encodeChars_end (b :: bytes') Hb ltac:(discriminate))
    as (front & x & y & g & E & Hl & Hg).
  set (bytes := b :: bytes') in *. clearbody bytes.
  intros base64 len b0 b1 b2.
  assert (Hlen : len = 4 * Z.of_nat g).
  { unfold len, base64, encodeBase64.
    rewrite length_string_of_list, E, length_app. simpl length. lia. }
  assert (Hy : charAt base64 (len - 1) = Some y).
  { pose proof (charAt_after front [x; y] 1) as H.
    unfold base64, encodeBase64. rewrite E.
    replace (len - 1) with (Z.of_nat (length front) + Z.of_nat 1) by lia. exact H. }
  assert (Hx : charAt base64 (len - 2) = Some x).
  { pose proof (charAt_after front [x; y] 0) as H.
    unfold base64, encodeBase64. rewrite E.
    replace (len - 2) with (Z.of_nat (length front) + Z.of_nat 0) by lia. exact H. }
  unfold b2, b1, b0. rewrite Hx, Hy. clear Hx Hy E.
  unfold ToIndex.
  destruct (isPad (Some y)), (isPad (Some x));
    unfold Qminus, Qplus, Qopp, Qmult, inject_Z; simpl Qnum; simpl Qden;
    simpl in Hg;
    repeat match goal with
           | |- context [Z.pos ?d] => progress change (Z.pos d) with 4
           end;
    match goal with
    | |- context [?num ÷ 4] =>
        replace num with ((3 * Z.of_nat g
                           - (3 * Z.of_nat g - Z.of_nat (length bytes))) * 4) by lia
    end;
    rewrite Z.quot_mul by lia;
    match goal with
    | |- context [?v <? 0] => destruct (Z.ltb_spec v 0); [lia |]
    end;
    f_equal; lia.
Qed.

Lemma decode_encode (bytes : list Z) :
  Forall isByte bytes -> decodeBase64 (encodeBase64 bytes) = Some bytes.
Proof.
  intros Hb. unfold decodeBase64, newUint8Array.
  pose proof (bufferLength_encoded bytes Hb) as Hn. simpl in Hn. rewrite Hn.
  pose proof (decodeLoop_encoded bytes Hb [] []
                (S (String.length (encodeBase64 bytes)))) as Hloop.
  simpl in Hloop. apply Hloop.
  unfold encodeBase64. rewrite length_string_of_list. lia.
Qed.

(** X1. [decodeBase64] inverts the standard base64 encoding: for every
    list of bytes, decoding its encoding (four characters for each
    started group of three bytes, with one or two padding marks when the
    length is no multiple of three) returns the bytes. *)
Theorem decodeBase64_encodeBase64 (bytes : list Z) (Hb : Forall isByte bytes) :
  decodeBase64 (encodeBase64 bytes) = Some bytes
  /\ String.length (encodeBase64 bytes) = (4 * ((length bytes + 2) / 3))%nat.
Proof.
  split; [apply decode_encode, Hb |].
  destruct bytes as [| b bytes']; [reflexivity |].
  destruct (encodeChars_end (b :: bytes') Hb ltac:(discriminate))
    as (front & x & y & g & E & Hl & Hg).
  unfold encodeBase64. rewrite length_string_of_list, E, length_app.
  simpl length in *.
  replace ((S (length bytes') + 2) / 3)%nat with g; [lia |].
  destruct (isPad (Some x)), (isPad (Some y)); simpl in Hg.
  - apply (Nat.div_unique _ 3 g 0); lia.
  - apply (Nat.div_unique _ 3 g 1); lia.
  - apply (Nat.div_unique _ 3 g 1); lia.
  - apply (Nat.div_unique _ 3 g 2); lia.
Qed.

Lemma decodeBase64_encodeBase64_witness :
  Forall isByte [250; 120; 109; 72; 0; 255; 7]
  /\ encodeBase64 [250; 120; 109; 72; 0; 255; 7] = "+nhtSAD/Bw=="
  /\ decodeBase64 "+nhtSAD/Bw==" = Some [250; 120; 109; 72; 0; 255; 7].
Proof.
  assert (Hb : Forall isByte [250; 120; 109; 72; 0; 255; 7])
    by (repeat constructor; unfold isByte; lia).
  split; [exact Hb |]. split; [reflexivity |].
  exact (proj1 (decodeBase64_encodeBase64 _ Hb)).
Defined.

(** ** Readings off the wire *)

Lemma readingOfBytes_four (b0 b1 b2 b3 : Z) (rest : list Z) (date : Z) :
  readingOfBytes (b0 :: b1 :: b2 :: b3 :: rest) date
  = {| voltage := JNum (Qred (b0 # 100)); current := JNum (Qred (b1 # 100));
       temperature := JNum (Qred (b2 # 10)); ph := JNum (Qred (b3 # 10));
       timestamp := date |}.
Proof. reflexivity. Qed.

Lemma encodeBase64_nonempty (bytes : list Z) :
  Forall isByte bytes -> bytes <> [] -> encodeBase64 bytes <> "".
Proof.
  intros Hb Hne E.
  destruct (encodeChars_end bytes Hb Hne) as (front & x & y & g & El & _).
  apply (f_equal String.length) in E. unfold encodeBase64 in E.
  rewrite length_string_of_list, El, length_app in E. simpl in E. lia.
Qed.

Lemma emitted_nothing {A : Type} (m : M A) (w : World) :
  exec m w = w -> emitted m w = [].
Proof. intros H. unfold emitted. rewrite H. apply drop_all. Qed.

(** X2. A characteristic value of at least four bytes, base64-encoded by
    the library, is delivered as the reading [b0/100, b1/100, b2/10,
    b3/10] stamped with the acquisition instant, by the notification path
    and by a polling pass alike; bytes after the fourth are ignored. *)
Theorem encoded_payload_reading (b0 b1 b2 b3 : Z) (rest : list Z) (date : Z) (w : World)
    (Hb : Forall isByte (b0 :: b1 :: b2 :: b3 :: rest))
    (Hcb : callbacks (svc w) = true) :
  let payload := encodeBase64 (b0 :: b1 :: b2 :: b3 :: rest) in
  let reading :=
    {| voltage := JNum (Qred (b0 # 100)); current := JNum (Qred (b1 # 100));
       temperature := JNum (Qred (b2 # 10)); ph := JNum (Qred (b3 # 10));
       timestamp := date |} in
  emitted (monitorListener (MonitorValue (Some payload)) date) w
  = [onDataReceived reading]
  /\ readServices
       [{| characteristics :=
             Returns [{| isReadable := true; read := Returns (Some payload) |}] |}] date
     = Returns (Some reading).
Proof.
  intros payload reading.
  assert (Hd : decodeBase64 payload = Some (b0 :: b1 :: b2 :: b3 :: rest))
    by (apply decode_encode, Hb).
  assert (Hne : payload <> "") by (apply encodeBase64_nonempty; [exact Hb | discriminate]).
  split.
  - unfold monitorListener.
    rewrite (handleCharacteristicData_emitted payload _ date w Hcb Hne Hd).
    reflexivity.
  - rewrite readServices_cons. simpl.
    destruct (String.eqb_spec payload "") as [E | _]; [contradiction |].
    simpl. rewrite Hd. reflexivity.
Qed.

Lemma encoded_payload_reading_witness :
  Forall isByte [250; 120; 109; 72]
  /\ callbacks (svc pollingWorld) = true
  /\ emitted (monitorListener (MonitorValue (Some "+nhtSA==")) 1000) pollingWorld
     = [onDataReceived {| voltage := JNum (5 # 2); current := JNum (6 # 5);
                          temperature := JNum (109 # 10); ph := JNum (36 # 5);
                          timestamp := 1000 |}].
Proof.
  assert (Hb : Forall isByte [250; 120; 109; 72])
    by (repeat constructor; unfold isByte; lia).
  split; [exact Hb |]. split; [reflexivity |].
  exact (proj1 (encoded_payload_reading 250 120 109 72 [] 1000 pollingWorld Hb eq_refl)).
Defined.

Lemma readCharacteristics_byteReading (cs : list Characteristic) (date : Z)
    (r : SensorReading) :
  readCharacteristics cs date = Some r -> byteReading date r.
Proof.
  induction cs as [| c cs IH]; simpl; [discriminate |].
  destruct (isReadable c); [| exact IH].
  destruct (read c) as [value | m]; [| exact IH].
  destruct (truthy value); [| exact IH].
  destruct (decodeBase64_total (default "" value)) as (bytes & Hd & Hb).
  rewrite Hd.
  destruct bytes as [| b0 [| b1 [| b2 [| b3 rest]]]]; simpl; try exact IH.
  intros [= <-].
  apply Forall_cons in Hb as [H0 Hb]. apply Forall_cons in Hb as [H1 Hb].
  apply Forall_cons in Hb as [H2 Hb]. apply Forall_cons in Hb as [H3 _].
  exists b0, b1, b2, b3. rewrite readingOfBytes_four. auto.
Qed.

Lemma readServices_byteReading (services : list Service) (date : Z)
    (r : SensorReading) :
  readServices services date = Returns (Some r) -> byteReading date r.
Proof.
  induction services as [| s services IH]; [discriminate |].
  rewrite readServices_cons.
  destruct (characteristics s) as [cs | m]; [| discriminate].
  destruct (readCharacteristics cs date) as [r' |] eqn:E; [| exact IH].
  intros [= <-]. eapply readCharacteristics_byteReading, E.
Qed.

(** X3. Whatever the peripheral answers, a polling pass delivers at most
    one event; if it is a reading, all four of its fields are finite
    numbers made of one byte each (voltage and current at most 2.55,
    temperature and ph at most 25.5), stamped with the instant of the
    pass: the polling path never delivers a [NaN] field. *)
Theorem polling_delivers_finite (services : Outcome (list Service)) (date : Z) (w : World) :
  (length (emitted (pollTick services date) w) <= 1)%nat
  /\ forall r, In (onDataReceived r) (emitted (pollTick services date) w) ->
               byteReading date r.
Proof.
  destruct w as [[mgr dev scanning cb init err] dl clk tos ns lk cn mon pi dead].
  ble_unfold; ble_simpl.
  destruct dev as [d |]; ble_simpl; [| rewrite drop_all; simpl; split; [lia | tauto]].
  destruct services as [services | m]; ble_simpl.
  - destruct (readServices services date) as [[r' |] | m] eqn:E; ble_simpl;
      destruct cb; ble_simpl; rewrite ?drop_app_length, ?drop_all; simpl;
      (split; [lia |]); intros r Hin;
      repeat (destruct Hin as [Hin | Hin]; try discriminate Hin); try contradiction.
    injection Hin as <-. eapply readServices_byteReading, E.
  - destruct cb; ble_simpl; rewrite ?drop_app_length, ?drop_all; simpl;
      (split; [lia |]); intros r Hin;
      repeat (destruct Hin as [Hin | Hin]; try discriminate Hin); contradiction.
Qed.

(** X4. The monitor listener delivers nothing and changes nothing when
    the library reports an error or a value that is [null] or empty; for
    every other value it delivers exactly one reading, built from the
    bytes the value resolves to, and changes nothing else. *)
Theorem notification_delivery (r : MonitorReport) (date : Z) (w : World)
    (Hcb : callbacks (svc w) = true) :
  match r with
  | MonitorFailed | MonitorValue None => exec (monitorListener r date) w = w
  | MonitorValue (Some v) =>
      if String.eqb v "" then exec (monitorListener r date) w = w
      else exists data,
          decodeBase64 v = Some data /\ Forall isByte data
          /\ exec (monitorListener r date) w
             = set_delivered (delivered w ++ [onDataReceived (readingOfBytes data date)]) w
  end.
Proof.
  destruct r as [| [v |]]; try reflexivity.
  destruct (String.eqb v "") eqn:E.
  - unfold exec, monitorListener, handleCharacteristicData. rewrite E. reflexivity.
  - destruct (decodeBase64_total v) as (data & Hd & Hb).
    exists data. split; [exact Hd |]. split; [exact Hb |].
    unfold exec, monitorListener, handleCharacteristicData, emit.
    rewrite E, Hd. simpl. rewrite Hcb. reflexivity.
Qed.

Lemma notification_delivery_witness :
  callbacks (svc pollingWorld) = true
  /\ exec (monitorListener MonitorFailed 5) pollingWorld = pollingWorld
  /\ exec (monitorListener (MonitorValue (Some "")) 5) pollingWorld = pollingWorld.
Proof.
  split; [reflexivity |].
  split.
  - exact (notification_delivery MonitorFailed 5 pollingWorld eq_refl).
  - exact (notification_delivery (MonitorValue (Some "")) 5 pollingWorld eq_refl).
Defined.

(** ** The hook: what every reachable state satisfies *)

Lemma slice_last_map {A B : Type} (f : A -> B) (n : nat) (l : list A) :
  map f (slice_last n l) = slice_last n (map f l).
Proof. unfold slice_last. rewrite length_map. symmetry. apply skipn_map. Qed.

Lemma slice_last_snoc {A : Type} (n : nat) (l : list A) (x : A) :
  last (slice_last (S n) (l ++ [x])) = Some x.
Proof.
  unfold slice_last. rewrite length_app. simpl length.
  rewrite drop_app_le by lia. apply last_snoc.
Qed.

Lemma history_inv_record (c : RecordCall) (st : SensorState) :
  history_inv st -> history_inv (record c st).
Proof.
  intros (Hlen & Hts & _). unfold history_inv.
  rewrite record_voltageHistory, record_currentHistory.
  split; [apply slice_last_le |]. split.
  - rewrite !slice_last_map, !map_app, Hts. reflexivity.
  - replace (currentReading (record c st)) with (Some (readingOf c))
      by (destruct c; reflexivity).
    unfold MAX_HISTORY_POINTS. split; apply slice_last_snoc.
Qed.

Lemma history_inv_hookCall (c : HookCall) (h : Hook) :
  history_inv (state h) -> history_inv (state (hookCall c h)).
Proof.
  intros H. destruct c; simpl; rewrite ?state_setState; try exact H.
  - exact (history_inv_record (RealReading reading) _ H).
  - unfold toggleConnection. destruct (isConnected (state h)); exact H.
  - split; [simpl; lia | split; [reflexivity | split; reflexivity]].
  - destruct (liveIntervals h); [exact H |]. rewrite state_setState.
    exact (history_inv_record (SimulatedTick u date) _ H).
Qed.

(** X5. In every state the hook reaches, by any interleaving of its
    operations and of firings of the generator, both histories hold at
    most 60 points and the same instants in the same order; when there is
    a current reading, its voltage and current are the last points of the
    two histories, and when there is none, both histories are empty. *)
Theorem histories_agree (calls : list HookCall) :
  let st := state (hookRun calls) in
  (length (voltageHistory st) <= 60)%nat
  /\ (length (currentHistory st) <= 60)%nat
  /\ map point_timestamp (voltageHistory st) = map point_timestamp (currentHistory st)
  /\ match currentReading st with
     | None => voltageHistory st = [] /\ currentHistory st = []
     | Some r =>
         last (voltageHistory st) = Some (voltagePoint r)
         /\ last (currentHistory st) = Some (currentPoint r)
     end.
Proof.
  assert (H : history_inv (state (hookRun calls))).
  { unfold hookRun.
    assert (H0 : history_inv (state mountHook))
      by (split; [simpl; lia | split; [reflexivity | split; reflexivity]]).
    revert H0. generalize mountHook.
    induction calls as [| c calls IH]; intros h Hh; simpl; [exact Hh |].
    apply IH, history_inv_hookCall, Hh. }
  destruct H as (Hlen & Hts & Hlast). intros st.
  split; [exact Hlen |]. split; [| split; [exact Hts | exact Hlast]].
  apply (f_equal (@length Z)) in Hts. rewrite !length_map in Hts.
  subst st. rewrite <- Hts. exact Hlen.
Qed.

Lemma connection_inv_hookCall (c : HookCall) (h : Hook) :
  (isConnected (state h) = false -> connectedDeviceName (state h) = None) ->
  isConnected (state (hookCall c h)) = false ->
  connectedDeviceName (state (hookCall c h)) = None.
Proof.
  intros H. destruct c; simpl; rewrite ?state_setState; simpl; try exact H;
    try reflexivity; try discriminate.
  - unfold toggleConnection. destruct (isConnected (state h)); simpl;
      [reflexivity | discriminate].
  - destruct (liveIntervals h); [exact H | rewrite state_setState; exact H].
Qed.

Lemma connection_inv_hookRun (calls : list HookCall) :
  isConnected (state (hookRun calls)) = false ->
  connectedDeviceName (state (hookRun calls)) = None.
Proof.
  unfold hookRun.
  assert (H0 : isConnected (state mountHook) = false ->
               connectedDeviceName (state mountHook) = None) by reflexivity.
  revert H0. generalize mountHook.
  induction calls as [| c calls IH]; intros h0 Hh; simpl; [exact Hh |].
  apply IH. apply connection_inv_hookCall, Hh.
Qed.

(** X6. In every state the hook reaches, a device name is shown only
    while [isConnected] holds; the generator has an interval exactly
    while [isSimulating] holds, and never more than one; so while
    [isSimulating] is false there is no interval whose firing could
    record a synthetic reading. *)
Theorem connection_and_generator (calls : list HookCall) :
  let h := hookRun calls in
  (isConnected (state h) = false -> connectedDeviceName (state h) = None)
  /\ (if isSimulating (state h)
      then exists i, intervalRef h = Some i /\ liveIntervals h = [i]
      else intervalRef h = None /\ liveIntervals h = [])
  /\ (isSimulating (state h) = false ->
      forall u date, hookCall (IntervalFires u date) h = h).
Proof.
  intros h. pose proof (hook_inv_hookRun calls) as Hinv. fold h in Hinv.
  split; [| split; [exact Hinv |]].
  - apply connection_inv_hookRun.
  - intros Hs u date. unfold hook_inv in Hinv. rewrite Hs in Hinv.
    destruct Hinv as [_ Hl]. simpl. rewrite Hl. reflexivity.
Qed.

Lemma connection_and_generator_witness :
  let h := hookRun [StartSimulation (Some "A"); DisconnectRealDevice] in
  isConnected (state h) = false
  /\ connectedDeviceName (state h) = None
  /\ isSimulating (state h) = true
  /\ liveIntervals h = [1%nat].
Proof.
  intros h.
  destruct (connection_and_generator [StartSimulation (Some "A"); DisconnectRealDevice])
    as (Hname & _ & _).
  split; [reflexivity |]. split; [apply Hname; reflexivity |].
  split; reflexivity.
Defined.

Lemma StronglySorted_drop (l : list Z) : forall n,
  StronglySorted Z.le l -> StronglySorted Z.le (drop n l).
Proof.
  induction l as [| x l IH]; intros [| n] H; simpl; try exact H.
  apply IH. inversion H; assumption.
Qed.

(** X7. When readings are recorded with instants that do not decrease,
    the instants in both histories do not decrease either: the buffer
    keeps arrival order and evicts from the old end only. *)
Theorem history_timestamps_ascending (cs : list RecordCall)
    (Hdates : StronglySorted Z.le (map (fun c => timestamp (readingOf c)) cs)) :
  let st := recordAll cs initialState in
  StronglySorted Z.le (map point_timestamp (voltageHistory st))
  /\ StronglySorted Z.le (map point_timestamp (currentHistory st)).
Proof.
  intros st.
  destruct (recordAll_histories cs initialState) as [Hv Hc]; [simpl; lia .. |].
  fold st in Hv, Hc. simpl in Hv, Hc. rewrite Hv, Hc, !slice_last_map.
  rewrite !map_map. simpl.
  split; apply StronglySorted_drop; exact Hdates.
Qed.

Lemma history_timestamps_ascending_witness :
  StronglySorted Z.le
    (map point_timestamp (voltageHistory (recordAll sampleCalls initialState))).
Proof.
  apply (history_timestamps_ascending sampleCalls).
  unfold sampleCalls. rewrite map_map. simpl.
  repeat (constructor; [| repeat (constructor; [lia |]); constructor]).
  constructor.
Defined.

Lemma recordAll_connection (cs : list RecordCall) : forall st,
  isConnected (recordAll cs st) = isConnected st
  /\ isSimulating (recordAll cs st) = isSimulating st
  /\ connectionMode (recordAll cs st) = connectionMode st
  /\ connectedDeviceName (recordAll cs st) = connectedDeviceName st.
Proof.
  induction cs as [| c cs IH]; intros st; [repeat split |].
  change (recordAll (c :: cs) st) with (recordAll cs (record c st)).
  destruct (IH (record c st)) as (H1 & H2 & H3 & H4).
  rewrite H1, H2, H3, H4. destruct c; repeat split.
Qed.

Lemma recordAll_currentReading (cs : list RecordCall) (st : SensorState) :
  currentReading (recordAll cs st)
  = match last (map readingOf cs) with
    | Some r => Some r
    | None => currentReading st
    end.
Proof.
  induction cs as [| c cs IH] using rev_ind; [reflexivity |].
  unfold recordAll. rewrite fold_left_app, map_app. simpl map. rewrite last_snoc.
  simpl. destruct c; reflexivity.
Qed.

(** X8. [clearHistory] restarts the aggregation from any state: the
    readings recorded after it are exactly what the histories hold (all
    but the last 60 dropped), nothing recorded before it survives, and
    neither clearing nor recording touches the connection state or the
    mode. *)
Theorem clear_restarts_history (st : SensorState) (cs : list RecordCall) :
  let st' := recordAll cs (clearHistory st) in
  voltageHistory st' = drop (length cs - 60)%nat (map voltagePoint (map readingOf cs))
  /\ currentHistory st' = drop (length cs - 60)%nat (map currentPoint (map readingOf cs))
  /\ currentReading st' = last (map readingOf cs)
  /\ isConnected st' = isConnected st
  /\ isSimulating st' = isSimulating st
  /\ connectionMode st' = connectionMode st
  /\ connectedDeviceName st' = connectedDeviceName st.
Proof.
  intros st'.
  destruct (recordAll_histories cs (clearHistory st)) as [Hv Hc]; [simpl; lia .. |].
  destruct (recordAll_connection cs (clearHistory st)) as (H1 & H2 & H3 & H4).
  fold st' in Hv, Hc, H1, H2, H3, H4. simpl in Hv, Hc.
  unfold slice_last in Hv, Hc. rewrite !length_map in Hv, Hc.
  split; [exact Hv |]. split; [exact Hc |].
  split; [| repeat split; assumption].
  unfold st'. rewrite recordAll_currentReading.
  destruct (last (map readingOf cs)); reflexivity.
Qed.

(** ** The permission and radio gate, and the scan it guards *)

Lemma checkPermissions_spec (env : GateEnv) (w : World) :
  result (checkPermissions env) w = gatePasses env (svc w)
  /\ if gatePasses env (svc w)
     then exec (checkPermissions env) w = w
     else exists message, exec (checkPermissions env) w = deliver (onError message) w.
Proof.
  destruct w as [[mgr dev scanning cb init err] dl clk tos ns lk cn mon pi dead].
  destruct env as [os ver gr rs].
  unfold gatePasses, deliver. ble_unfold; ble_simpl.
  destruct mgr, cb, os, gr as [[|] |], rs as [radio |];
    try (destruct ver as [apiLevel |]; [destruct (31 <=? apiLevel) |]);
    try (destruct (String.eqb radio "PoweredOn"));
    try (destruct (String.eqb radio "PoweredOff"));
    try (destruct (String.eqb radio "Unauthorized"));
    ble_simpl;
    (split; [reflexivity
            | first [reflexivity | exists ""; reflexivity | eexists; reflexivity]]).
Qed.

(** X9. [checkPermissions] answers [true] exactly when the platform is
    not the web, the manager exists, on Android every requested
    permission was granted, and the radio reports [PoweredOn]. When it
    answers [true] it changes and reports nothing; when it answers
    [false] it reports exactly one error to the callback bundle and
    changes nothing else. *)
Theorem gate_outcome (env : GateEnv) (w : World) :
  result (checkPermissions env) w = gatePasses env (svc w)
  /\ (gatePasses env (svc w) = true -> exec (checkPermissions env) w = w)
  /\ (gatePasses env (svc w) = false ->
      exists message,
        exec (checkPermissions env) w = deliver (onError message) w
        /\ (callbacks (svc w) = true ->
            emitted (checkPermissions env) w = [onError message])).
Proof.
  destruct (checkPermissions_spec env w) as [Hr He].
  split; [exact Hr |]. split.
  - intros Hp. rewrite Hp in He. exact He.
  - intros Hp. rewrite Hp in He. destruct He as [message He].
    exists message. split; [exact He |].
    intros Hcb. unfold emitted. rewrite He. unfold deliver. rewrite Hcb. simpl.
    apply drop_app_length.
Qed.

Lemma gate_outcome_witness :
  let env := {| OS := android; Version := Some 33; granted := Returns false;
                radioState := Returns "PoweredOn" |} in
  gatePasses env (svc idleWorld) = false
  /\ (exists message, emitted (checkPermissions env) idleWorld = [onError message])
  /\ exec (checkPermissions iosGate) idleWorld = idleWorld.
Proof.
  intros env.
  destruct (gate_outcome env idleWorld) as (_ & _ & Hfail).
  destruct (gate_outcome iosGate idleWorld) as (_ & Hpass & _).
  split; [reflexivity |].
  split; [| apply Hpass; reflexivity].
  destruct (Hfail eq_refl) as (message & _ & Hem).
  exists message. exact (Hem eq_refl).
Defined.

Lemma startScan_spec (timeoutMs : Z) (env : GateEnv) (o : Outcome unit) (w : World) :
  exec (startScan timeoutMs env o) w
  = if negb (manager (svc w)) || isScanning (svc w) then w
    else if gatePasses env (svc w) then
      match o with
      | Returns _ =>
          set_timeouts (timeouts w ++ [clock w + Z.max 0 timeoutMs])
            (set_scanDeadline (clock w + Z.max 0 timeoutMs)
               (set_nativeScan true (with_svc (set_isScanning true) w)))
      | Throws _ => deliver (onError "Failed to start scanning") w
      end
    else exec (checkPermissions env) w.
Proof.
  destruct (checkPermissions_spec env w) as [Hr He].
  unfold exec, result in *. unfold startScan. rewrite bind_eq. unfold this at 1 2. simpl.
  destruct (negb (manager (svc w)) || isScanning (svc w)) eqn:Hguard; [reflexivity |].
  rewrite bind_eq, Hr.
  destruct (gatePasses env (svc w)); simpl; [| reflexivity].
  rewrite He. apply orb_false_iff in Hguard as [Hm Hs].
  destruct w as [[mgr dev scanning cb init err] dl clk tos ns lk cn mon pi dead].
  simpl in *. subst scanning. unfold deliver.
  destruct o, cb; ble_unfold; ble_simpl; reflexivity.
Qed.

(** X10. [startScan] does nothing at all, and reports nothing, when the
    manager is missing or a scan is already flagged. Otherwise, if the
    gate refuses, the only effect is the gate's one error; if the library
    throws on opening the scan, the only effect is the error
    ["Failed to start scanning"]; and if it opens, the scanning flag is
    set and one timeout for [stopScan] is added, due [max 0 timeoutMs]
    after now, with nothing reported. *)
Theorem startScan_outcomes (timeoutMs : Z) (env : GateEnv) (o : Outcome unit) (w : World) :
  let w' := exec (startScan timeoutMs env o) w in
  (manager (svc w) = false \/ isScanning (svc w) = true -> w' = w)
  /\ (manager (svc w) = true -> isScanning (svc w) = false ->
      (gatePasses env (svc w) = false ->
       exists message, w' = deliver (onError message) w)
      /\ (gatePasses env (svc w) = true ->
          match o with
          | Throws _ => w' = deliver (onError "Failed to start scanning") w
          | Returns _ =>
              isScanning (svc w') = true /\ nativeScan w' = true
              /\ timeouts w' = (timeouts w ++ [clock w + Z.max 0 timeoutMs])%list
              /\ delivered w' = delivered w
              /\ device (svc w') = device (svc w)
          end)).
Proof.
  intros w'. subst w'. rewrite startScan_spec. split.
  - intros [Hm | Hs]; [rewrite Hm | rewrite Hs, orb_true_r]; reflexivity.
  - intros Hm Hs. rewrite Hm, Hs. simpl. split.
    + intros Hg. rewrite Hg.
      destruct (checkPermissions_spec env w) as [_ He]. rewrite Hg in He. exact He.
    + intros Hg. rewrite Hg. destruct o; [| reflexivity]. repeat split.
Qed.

Lemma startScan_outcomes_witness :
  exec (startScan 10000 iosGate (Returns tt)) (initialWorld 0) = initialWorld 0
  /\ exec (startScan 10000 iosGate (Returns tt)) scanningWorld = scanningWorld
  /\ timeouts (exec (startScan (-5) iosGate (Returns tt)) idleWorld) = [0].
Proof.
  destruct (startScan_outcomes 10000 iosGate (Returns tt) (initialWorld 0)) as [H0 _].
  destruct (startScan_outcomes 10000 iosGate (Returns tt) scanningWorld) as [H1 _].
  destruct (startScan_outcomes (-5) iosGate (Returns tt) idleWorld) as [_ H2].
  split; [apply H0; left; reflexivity |].
  split; [apply H1; right; reflexivity |].
  destruct (H2 eq_refl eq_refl) as [_ Hopen].
  destruct (Hopen eq_refl) as (_ & _ & Ht & _). exact Ht.
Defined.

(** X11. [stopScan] is idempotent and does nothing when no scan is
    flagged; it never reports and never cancels the pending timeout. A
    scan opened on an idle service and then stopped leaves the service
    exactly as it was, apart from that pending timeout; and when the
    timeout of an earlier scan fires on an idle service, nothing but the
    timer changes. *)
Theorem stopScan_composition (w : World) :
  exec stopScan (exec stopScan w) = exec stopScan w
  /\ (isScanning (svc w) = false -> exec stopScan w = w)
  /\ timeouts (exec stopScan w) = timeouts w
  /\ delivered (exec stopScan w) = delivered w
  /\ (forall timeoutMs env,
        manager (svc w) = true -> isScanning (svc w) = false ->
        nativeScan w = false -> gatePasses env (svc w) = true ->
        exec stopScan (exec (startScan timeoutMs env (Returns tt)) w)
        = set_timeouts (timeouts w ++ [clock w + Z.max 0 timeoutMs])
            (set_scanDeadline (clock w + Z.max 0 timeoutMs) w))
  /\ (forall due w',
        isScanning (svc w) = false ->
        step (TimeoutFires due) w = Some w' ->
        w' = set_timeouts (removeFirst due (timeouts w)) w).
Proof.
  destruct w as [[mgr dev scanning cb init err] dl clk tos ns lk cn mon pi dead].
  repeat split.
  - ble_unfold; ble_simpl. destruct mgr, scanning; reflexivity.
  - simpl. intros ->. ble_unfold; ble_simpl. rewrite andb_false_r. reflexivity.
  - ble_unfold; ble_simpl. destruct mgr, scanning; reflexivity.
  - ble_unfold; ble_simpl. destruct mgr, scanning; reflexivity.
  - simpl. intros timeoutMs env -> -> -> Hg. rewrite startScan_spec. simpl.
    simpl in Hg. rewrite Hg. reflexivity.
  - simpl. intros due w' -> Hstep.
    destruct (memZ due tos && (due <=? clk)); [| discriminate].
    injection Hstep as <-. ble_unfold; ble_simpl. rewrite andb_false_r. reflexivity.
Qed.

Lemma stopScan_composition_witness :
  exec stopScan (exec (startScan 10000 iosGate (Returns tt)) idleWorld)
  = set_timeouts [10000] (set_scanDeadline 10000 idleWorld)
  /\ exec stopScan idleWorld = idleWorld.
Proof.
  destruct (stopScan_composition idleWorld) as (_ & Hidle & _ & _ & Hpair & _).
  split.
  - exact (Hpair 10000 iosGate eq_refl eq_refl eq_refl eq_refl).
  - apply Hidle. reflexivity.
Defined.

(** X12. The scan listener reports a sighting only when the device has
    a non-empty name: then it delivers exactly one [onDeviceFound] with
    the device's id and name, its signal strength (or [-100] when the
    strength is missing or zero, so a reported strength is never zero),
    and its connectable flag (or [true] when missing), and changes
    nothing else. A sighting without a device or without a name changes
    and reports nothing. *)
Theorem scanListener_report (d : option Device.t) (w : World) :
  match d with
  | None => exec (scanListener (ScanSaw d)) w = w
  | Some dev =>
      if truthy (Device.name dev) then
        exists item,
          exec (scanListener (ScanSaw d)) w = deliver (onDeviceFound item) w
          /\ BleDevice.id item = Device.id dev
          /\ Some (BleDevice.name item) = Device.name dev
          /\ BleDevice.rssi item <> 0
          /\ (forall r, Device.rssi dev = Some r -> r <> 0 -> BleDevice.rssi item = r)
          /\ (Device.rssi dev = None \/ Device.rssi dev = Some 0 ->
              BleDevice.rssi item = -100)
          /\ BleDevice.isConnectable item = default true (Device.isConnectable dev)
      else exec (scanListener (ScanSaw d)) w = w
  end.
Proof.
  destruct d as [[i n r c] |]; [| reflexivity]. simpl.
  destruct n as [n |]; simpl; [| reflexivity].
  destruct (String.eqb_spec n "") as [-> | Hne]; simpl; [reflexivity |].
  eexists. split; [reflexivity |]. simpl.
  repeat split.
  - destruct r as [r |]; [| discriminate].
    destruct (Z.eqb_spec r 0); [discriminate | assumption].
  - intros r0 -> Hr0. destruct (Z.eqb_spec r0 0); [contradiction | reflexivity].
  - intros [-> | ->]; reflexivity.
Qed.

Lemma connectToDevice_spec (deviceId : string) (c : Outcome Device.t)
    (d : Outcome unit) (m : Outcome unit) (w : World) :
  manager (svc w) = true ->
  connectToDevice deviceId c d m w
  = let w0 := exec stopScan w in
    match c with
    | Throws message => (false, deliver (onError ("Connection failed: " ++ message)) w0)
    | Returns dev =>
        let w1 := set_link true (with_svc (set_device (Some dev)) w0) in
        match d with
        | Throws message =>
            (false, deliver (onError ("Connection failed: " ++ message)) w1)
        | Returns _ =>
            let w2 := deliver (onConnectionStateChange true (Device.name dev)) w1 in
            (true, match m with
                   | Returns _ => set_monitoring true w2
                   | Throws _ => set_pollInterval true w2
                   end)
        end
    end.
Proof.
  destruct w as [[mgr dev0 scanning cb init err] dl clk tos ns lk cn mon pi dead].
  simpl. intros ->. unfold deliver.
  destruct c, d, m, scanning, cb; ble_unfold; ble_simpl; reflexivity.
Qed.

(** X13. [connectToDevice] without a manager answers [false] and does
    and reports nothing. With a manager, in every reachable world, it
    first ends an ongoing scan, whatever happens next: afterwards neither
    the flag is set nor the library scanning. If the transport connection
    fails it answers [false], reports one error whose text starts with
    ["Connection failed: "], and leaves the active device as it was. *)
Theorem connectToDevice_cancels_scan (deviceId : string) (c : Outcome Device.t)
    (d : Outcome unit) (m : Outcome unit) (w : World) (Hreach : reachable w) :
  let attempt := connectToDevice deviceId c d m in
  (manager (svc w) = false -> result attempt w = false /\ exec attempt w = w)
  /\ (manager (svc w) = true ->
      isScanning (svc (exec attempt w)) = false
      /\ nativeScan (exec attempt w) = false
      /\ timeouts (exec attempt w) = timeouts w
      /\ forall message, c = Throws message ->
           result attempt w = false
           /\ exec attempt w
              = deliver (onError ("Connection failed: " ++ message)) (exec stopScan w)
           /\ device (svc (exec attempt w)) = device (svc w)).
Proof.
  intros attempt. split.
  - intros Hm. unfold attempt, result, exec, connectToDevice.
    rewrite bind_eq. unfold this. simpl. rewrite Hm. simpl. split; reflexivity.
  - intros Hm.
    destruct (scan_inv_reachable w Hreach) as [I1 I2 _ _].
    destruct (stopScan_clears w I1 I2) as [Hs Hn].
    assert (Ht : timeouts (exec stopScan w) = timeouts w /\
                 device (svc (exec stopScan w)) = device (svc w)).
    { clear. destruct w as [[mgr dev0 scanning cb init err] dl clk tos ns lk cn mon pi dead].
      ble_unfold; ble_simpl. destruct mgr, scanning; split; reflexivity. }
    destruct Ht as [Ht Hd].
    assert (Hex : forall w1, exec attempt w1 = snd (attempt w1)) by reflexivity.
    unfold result. rewrite !Hex. unfold attempt.
    rewrite (connectToDevice_spec deviceId c d m w Hm).
    remember (exec stopScan w) as w0 eqn:E0. clear E0 Hex.
    destruct w0 as [[mgr0 dev0 scanning0 cb0 init0 err0] dl0 clk0 tos0 ns0 lk0 cn0 mon0 pi0 dead0].
    simpl in Hs, Hn, Ht, Hd. subst scanning0 ns0 tos0 dev0. unfold deliver.
    destruct c as [dev | message], d, m, cb0; simpl;
      (split; [reflexivity | split; [reflexivity | split; [reflexivity |]]]);
      intros msg E; try discriminate E; injection E as <-;
      repeat split; reflexivity.
Qed.

Lemma connectToDevice_cancels_scan_witness :
  reachable scanningWorld
  /\ isScanning (svc scanningWorld) = true
  /\ isScanning
       (svc (exec (connectToDevice "AA:BB" (Throws "unreachable") (Returns tt) (Returns tt))
               scanningWorld)) = false
  /\ exec (connectToDevice "AA:BB" (Returns sensor) (Returns tt) (Returns tt))
       (initialWorld 0) = initialWorld 0.
Proof.
  assert (Hr : reachable scanningWorld).
  { exists 0, [CallInitialize (Returns true); CallSetCallbacks;
               CallStartScan 10000 iosGate (Returns tt)]. reflexivity. }
  assert (H0 : reachable (initialWorld 0)) by (exists 0, []; reflexivity).
  destruct (connectToDevice_cancels_scan "AA:BB" (Throws "unreachable") (Returns tt)
              (Returns tt) scanningWorld Hr) as [_ Hscan].
  destruct (connectToDevice_cancels_scan "AA:BB" (Returns sensor) (Returns tt)
              (Returns tt) (initialWorld 0) H0) as [Hnone _].
  split; [exact Hr |]. split; [reflexivity |].
  split; [apply (Hscan eq_refl) | apply (Hnone eq_refl)].
Defined.

(** X14. A connection attempt in which the transport connects and the
    enumeration succeeds answers [true], makes the device the active one,
    and reports exactly one [onConnectionStateChange(true, name)]. It
    then takes exactly one acquisition strategy: the notification
    subscription when subscribing does not throw (the polling interval is
    left as it was), and the polling interval only when subscribing
    throws. *)
Theorem connectToDevice_success (deviceId : string) (dev : Device.t) (m : Outcome unit)
    (w : World) (Hm : manager (svc w) = true) (Hcb : callbacks (svc w) = true) :
  let attempt := connectToDevice deviceId (Returns dev) (Returns tt) m in
  let w' := exec attempt w in
  result attempt w = true
  /\ device (svc w') = Some dev
  /\ emitted attempt w = [onConnectionStateChange true (Device.name dev)]
  /\ match m with
     | Returns _ => monitoring w' = true /\ pollInterval w' = pollInterval w
     | Throws _ => pollInterval w' = true /\ monitoring w' = monitoring w
     end.
Proof.
  intros attempt w'. unfold w', attempt, emitted, result, exec.
  rewrite (connectToDevice_spec deviceId (Returns dev) (Returns tt) m w Hm).
  destruct w as [[mgr dev0 scanning cb init err] dl clk tos ns lk cn mon pi dead].
  simpl in *. subst mgr cb. unfold deliver.
  destruct m, scanning; ble_unfold; ble_simpl; rewrite drop_app_length;
    repeat split.
Qed.

Lemma connectToDevice_success_witness :
  manager (svc idleWorld) = true /\ callbacks (svc idleWorld) = true
  /\ pollInterval
       (exec (connectToDevice "AA:BB" (Returns sensor) (Returns tt) (Returns tt))
          idleWorld) = false
  /\ pollInterval
       (exec (connectToDevice "AA:BB" (Returns sensor) (Returns tt) (Throws "no"))
          idleWorld) = true.
Proof.
  destruct (connectToDevice_success "AA:BB" sensor (Returns tt) idleWorld eq_refl eq_refl)
    as (_ & _ & _ & _ & Hp).
  destruct (connectToDevice_success "AA:BB" sensor (Throws "no") idleWorld eq_refl eq_refl)
    as (_ & _ & _ & Hq & _).
  split; [reflexivity |]. split; [reflexivity |].
  split; [exact Hp | exact Hq].
Defined.

(** ** Initialisation and teardown *)

Lemma init_inv_step (a : Action) (w w' : World) :
  init_inv w -> step a w = Some w' -> init_inv w'.
Proof.
  intros Hinv Hstep. destruct a; simpl in Hstep;
    repeat match type of Hstep with
           | (if ?c then _ else _) = _ => destruct c eqn:?
           end;
    try discriminate Hstep; injection Hstep as <-; revert Hinv.
  3: { unfold init_inv. intros Hinv. rewrite startScan_spec.
       destruct (checkPermissions_spec env w) as [_ He]. unfold deliver in *.
       destruct (negb (manager (svc w)) || isScanning (svc w)); [exact Hinv |].
       destruct (gatePasses env (svc w)).
       - destruct startDeviceScan; [exact Hinv |].
         destruct (callbacks (svc w)); exact Hinv.
       - destruct He as [message ->]. destruct (callbacks (svc w)); exact Hinv. }
  all: unfold init_inv;
    destruct w as [[mgr dev scanning cb init err] dl clk tos ns lk cn mon pi dead];
    simpl; intros ->; destruct mgr, scanning, dev, cb;
    try destruct cancelConnection; try destruct connect; try destruct discover;
    try destruct monitor;
    ble_unfold; ble_simpl; ble_cases; reflexivity.
Qed.

Lemma init_inv_reachable (w : World) : reachable w -> init_inv w.
Proof.
  intros (t0 & actions & Hrun).
  assert (H0 : init_inv (initialWorld t0)) by reflexivity.
  revert H0 Hrun. generalize (initialWorld t0).
  induction actions as [| a actions IH]; intros w0 H0 Hrun; simpl in Hrun.
  - injection Hrun as <-. exact H0.
  - destruct (step a w0) as [w1 |] eqn:Hstep; [| discriminate].
    eapply IH; [eapply init_inv_step; eassumption | exact Hrun].
Qed.

(** X15. In every reachable world the manager exists exactly when the
    service is flagged initialised, which is what [isAvailable()]
    answers. [initialize] answers whether the service is available
    afterwards; on an available service it changes nothing; on an
    unavailable one it either creates the manager or records an
    initialisation error, and it never reports through the callback
    bundle. *)
Theorem initialize_availability (w : World) (lib : Outcome bool) (Hreach : reachable w) :
  let w' := exec (initialize lib) w in
  isAvailable (svc w) = manager (svc w)
  /\ isInitialized (svc w) = manager (svc w)
  /\ result (initialize lib) w = isAvailable (svc w')
  /\ delivered w' = delivered w
  /\ (isAvailable (svc w) = true -> w' = w)
  /\ (isAvailable (svc w) = false ->
      match lib with
      | Returns true => manager (svc w') = true /\ getInitError (svc w') = getInitError (svc w)
      | _ => manager (svc w') = false /\ exists message, getInitError (svc w') = Some message
      end).
Proof.
  pose proof (init_inv_reachable w Hreach) as Hinv. unfold init_inv in Hinv.
  destruct w as [[mgr dev scanning cb init err] dl clk tos ns lk cn mon pi dead].
  simpl in *. subst init. unfold isAvailable, getInitError.
  destruct mgr, lib as [[|] |]; ble_unfold; ble_simpl;
    repeat split; try discriminate; eauto.
Qed.

Lemma initialize_availability_witness :
  reachable (initialWorld 0)
  /\ isAvailable (svc (initialWorld 0)) = false
  /\ isAvailable (svc (exec (initialize (Returns true)) (initialWorld 0))) = true
  /\ result (initialize (Throws "native module missing")) (initialWorld 0) = false.
Proof.
  assert (H0 : reachable (initialWorld 0)) by (exists 0, []; reflexivity).
  destruct (initialize_availability (initialWorld 0) (Returns true) H0)
    as (_ & _ & Hok & _).
  destruct (initialize_availability (initialWorld 0) (Throws "native module missing") H0)
    as (_ & _ & Hfail & _).
  split; [exact H0 |]. split; [reflexivity |].
  split; [rewrite <- Hok; reflexivity | rewrite Hfail; reflexivity].
Defined.



(** X17. Neither [disconnect] nor the disconnect observer clears the
    polling interval or the monitor subscription themselves. Whenever
    the interval fires with no active device, whatever the peripheral
    would answer, the tick only clears the interval and reports nothing;
    so after a disconnect the first tick ends polling silently. *)
Theorem polling_ends_after_disconnect (w : World) (services : Outcome (list Service))
    (date : Z) :
  (device (svc w) = None ->
   exec (pollTick services date) w = set_pollInterval false w)
  /\ (forall c,
        let w1 := exec (disconnect c) w in
        pollInterval w1 = pollInterval w /\ monitoring w1 = monitoring w
        /\ exec (pollTick services date) w1 = set_pollInterval false w1)
  /\ (let w1 := exec onDisconnected w in
      pollInterval w1 = pollInterval w /\ monitoring w1 = monitoring w
      /\ exec (pollTick services date) w1 = set_pollInterval false w1).
Proof.
  destruct w as [[mgr dev scanning cb init err] dl clk tos ns lk cn mon pi dead].
  split; [simpl; intros ->; reflexivity |].
  split; [intros c |];
    destruct dev, cb; try destruct c; ble_unfold; ble_simpl; repeat split.
Qed.

Lemma polling_ends_after_disconnect_witness :
  pollInterval pollingWorld = true
  /\ pollInterval (exec (disconnect (Returns tt)) pollingWorld) = true
  /\ pollInterval
       (exec (pollTick (Returns [goodService]) 9)
          (exec (disconnect (Returns tt)) pollingWorld)) = false
  /\ emitted (pollTick (Returns [goodService]) 9)
       (exec (disconnect (Returns tt)) pollingWorld) = [].
Proof.
  destruct (polling_ends_after_disconnect pollingWorld (Returns [goodService]) 9)
    as (_ & Hd & _).
  destruct (Hd (Returns tt)) as (Hp & _ & Ht).
  split; [reflexivity |]. split; [rewrite Hp; reflexivity |].
  split; [rewrite Ht; reflexivity |].
  unfold emitted. rewrite Ht. reflexivity.
Defined.

(** ** The scan screen: what the handlers make of the events *)

Lemma existsb_id (i : string) (prev : list DeviceItem.t) :
  existsb (fun d => String.eqb (DeviceItem.id d) i) prev = true
  <-> In i (map DeviceItem.id prev).
Proof.
  rewrite existsb_exists, in_map_iff. split.
  - intros (x & Hx & E). apply String.eqb_eq in E. eauto.
  - intros (x & E & Hx). exists x. split; [exact Hx | apply String.eqb_eq, E].
Qed.

Lemma refreshed_fields (device : BleDevice.t) (d : DeviceItem.t) :
  DeviceItem.id (refreshed device d) = DeviceItem.id d
  /\ DeviceItem.name (refreshed device d) = DeviceItem.name d
  /\ DeviceItem.type (refreshed device d) = DeviceItem.type d.
Proof.
  unfold refreshed. destruct (String.eqb (DeviceItem.id d) (BleDevice.id device));
    repeat split.
Qed.

Lemma foundDevice_cases (device : BleDevice.t) (prev : list DeviceItem.t) :
  (In (BleDevice.id device) (map DeviceItem.id prev)
   /\ foundDevice device prev = map (refreshed device) prev)
  \/ (~ In (BleDevice.id device) (map DeviceItem.id prev)
      /\ foundDevice device prev
         = (prev ++ [ {| DeviceItem.id := BleDevice.id device;
                         DeviceItem.name := BleDevice.name device;
                         DeviceItem.rssi := BleDevice.rssi device;
                         DeviceItem.type := realDevice |} ])%list).
Proof.
  unfold foundDevice.
  destruct (existsb (fun d => String.eqb (DeviceItem.id d) (BleDevice.id device)) prev)
    eqn:E.
  - left. split; [apply existsb_id, E | reflexivity].
  - right. split; [| reflexivity].
    intros Hin. apply existsb_id in Hin. congruence.
Qed.

Lemma foundDevice_NoDup (device : BleDevice.t) (prev : list DeviceItem.t) :
  NoDup (map DeviceItem.id prev) -> NoDup (map DeviceItem.id (foundDevice device prev)).
Proof.
  intros Hnd. destruct (foundDevice_cases device prev) as [[_ ->] | [Hnew ->]].
  - rewrite map_map.
    rewrite (map_ext _ DeviceItem.id); [exact Hnd |].
    intros d. apply refreshed_fields.
  - rewrite map_app. simpl. apply NoDup_app. split; [exact Hnd |].
    split; [| apply NoDup_singleton].
    intros i Hi Hd. apply list_elem_of_In in Hi. apply list_elem_of_In in Hd.
    destruct Hd as [<- | []]. contradiction.
Qed.

Lemma handleEvents_NoDup (evs : list Event) : forall s,
  NoDup (map DeviceItem.id (Screen.devices s)) ->
  NoDup (map DeviceItem.id (Screen.devices (handleEvents evs s))).
Proof.
  induction evs as [| e evs IH]; intros s H; [exact H |].
  apply IH. destruct e; simpl; try exact H. apply foundDevice_NoDup, H.
Qed.

(** X18. The device list of the scan screen never shows an id twice,
    whatever events arrive. A sighting of a listed id only refreshes the
    signal strength of that entry: ids, names, types, order and length
    stay as they were; a sighting of a new id is appended at the end as
    a real device. After a sighting, every entry with that id carries
    the sighting's signal strength, and entries with other ids are
    untouched. *)
Theorem foundDevice_dedup (device : BleDevice.t) (prev : list DeviceItem.t)
    (Hnodup : NoDup (map DeviceItem.id prev)) :
  let next := foundDevice device prev in
  NoDup (map DeviceItem.id next)
  /\ (forall evs s, Screen.devices s = prev ->
        NoDup (map DeviceItem.id (Screen.devices (handleEvents evs s))))
  /\ (exists item, In item next /\ DeviceItem.id item = BleDevice.id device)
  /\ (forall item, In item next -> DeviceItem.id item = BleDevice.id device ->
        DeviceItem.rssi item = BleDevice.rssi device)
  /\ (forall item, In item prev -> DeviceItem.id item <> BleDevice.id device ->
        In item next)
  /\ (In (BleDevice.id device) (map DeviceItem.id prev) ->
      map DeviceItem.id next = map DeviceItem.id prev
      /\ map DeviceItem.name next = map DeviceItem.name prev
      /\ map DeviceItem.type next = map DeviceItem.type prev)
  /\ (~ In (BleDevice.id device) (map DeviceItem.id prev) ->
      next = (prev ++ [ {| DeviceItem.id := BleDevice.id device;
                           DeviceItem.name := BleDevice.name device;
                           DeviceItem.rssi := BleDevice.rssi device;
                           DeviceItem.type := realDevice |} ])%list).
Proof.
  intros next.
  split; [apply foundDevice_NoDup, Hnodup |].
  split; [intros evs s <-; apply handleEvents_NoDup, Hnodup |].
  unfold next. destruct (foundDevice_cases device prev) as [[Hold ->] | [Hnew ->]].
  - split; [| split; [| split; [| split]]].
    + apply in_map_iff in Hold as (x & E & Hx).
      exists (refreshed device x). split; [apply in_map, Hx |].
      rewrite (proj1 (refreshed_fields device x)). exact E.
    + intros item Hin E. apply in_map_iff in Hin as (x & <- & Hx).
      rewrite (proj1 (refreshed_fields device x)) in E.
      unfold refreshed. apply String.eqb_eq in E. rewrite E. reflexivity.
    + intros item Hin Hne. apply in_map_iff. exists item. split; [| exact Hin].
      unfold refreshed. apply String.eqb_neq in Hne. rewrite Hne. reflexivity.
    + intros _. rewrite !map_map.
      repeat split; apply map_ext; intros d; apply refreshed_fields.
    + contradiction.
  - split; [| split; [| split; [| split]]].
    + eexists. split; [apply in_or_app; right; left; reflexivity | reflexivity].
    + intros item Hin E. apply in_app_or in Hin as [Hin | [<- | []]]; [| reflexivity].
      exfalso. apply Hnew. rewrite <- E. apply in_map, Hin.
    + intros item Hin _. apply in_or_app. left. exact Hin.
    + contradiction.
    + reflexivity.
Qed.

Lemma foundDevice_dedup_witness :
  let seen := {| BleDevice.id := "sim-2"; BleDevice.name := "Other name";
                 BleDevice.rssi := -70; BleDevice.isConnectable := true |} in
  NoDup (map DeviceItem.id SIMULATED_DEVICES)
  /\ map DeviceItem.name (foundDevice seen SIMULATED_DEVICES)
     = map DeviceItem.name SIMULATED_DEVICES
  /\ map DeviceItem.rssi (foundDevice seen SIMULATED_DEVICES) = [-35; -70; -55].
Proof.
  intros seen.
  assert (Hnd : NoDup (map DeviceItem.id SIMULATED_DEVICES)).
  { simpl.
    repeat (apply NoDup_cons_2;
            [ intros H;
              repeat (apply elem_of_cons in H as [H | H]; [discriminate H |]);
              apply elem_of_nil in H; exact H |]).
    apply NoDup_nil_2. }
  destruct (foundDevice_dedup seen SIMULATED_DEVICES Hnd) as (_ & _ & _ & _ & _ & Hold & _).
  split; [exact Hnd |].
  split; [apply Hold; simpl; auto | reflexivity].
Defined.

Lemma disconnect_emitted (c : Outcome unit) (w : World) :
  callbacks (svc w) = true ->
  emitted (disconnect c) w = [onConnectionStateChange false None]
  /\ device (svc (exec (disconnect c) w)) = None.
Proof.
  destruct w as [[mgr dev scanning cb init err] dl clk tos ns lk cn mon pi dead].
  simpl. intros ->. destruct dev, c; ble_unfold; ble_simpl;
    rewrite drop_app_length; split; reflexivity.
Qed.

Lemma connect_emitted (deviceId : string) (dev : Device.t) (m : Outcome unit) (w : World) :
  manager (svc w) = true -> callbacks (svc w) = true ->
  emitted (connectToDevice deviceId (Returns dev) (Returns tt) m) w
  = [onConnectionStateChange true (Device.name dev)]
  /\ device (svc (exec (connectToDevice deviceId (Returns dev) (Returns tt) m) w))
     = Some dev.
Proof.
  intros Hm Hcb. unfold emitted, exec.
  rewrite (connectToDevice_spec deviceId (Returns dev) (Returns tt) m w Hm).
  destruct w as [[mgr dev0 scanning cb init err] dl clk tos ns lk cn mon pi dead].
  simpl in *. subst mgr cb. unfold deliver.
  destruct m, scanning; ble_unfold; ble_simpl; rewrite drop_app_length; split; reflexivity.
Qed.

(** X19. When a press on a real device leads to a successful
    connection, the hook is told the device's name only if the device
    has a non-empty one: then the hook shows [isConnected] with that name
    and without simulation. For a device without a name the same
    successful connection makes the hook show [isConnected = false] and
    no name, while the service does hold the device. The histories are
    not touched either way. *)
Theorem connection_event_reaches_hook (s : Session) (item : DeviceItem.t)
    (dev : Device.t) (m : Outcome unit)
    (Hm : manager (svc (radio s)) = true) (Hcb : callbacks (svc (radio s)) = true) :
  let s' := pressRealDevice item (Returns dev) (Returns tt) m s in
  let st := state (Screen.sensor (screen s)) in
  let st' := state (Screen.sensor (screen s')) in
  isConnected_service (svc (radio s')) = true
  /\ (if truthy (Device.name dev)
      then isConnected st' = true /\ connectedDeviceName st' = Device.name dev
           /\ isSimulating st' = false
      else isConnected st' = false /\ connectedDeviceName st' = None
           /\ isSimulating st' = isSimulating st)
  /\ voltageHistory st' = voltageHistory st
  /\ currentHistory st' = currentHistory st
  /\ connectionMode st' = connectionMode st.
Proof.
  intros s' st st'.
  destruct (connect_emitted (DeviceItem.id item) dev m (radio s) Hm Hcb) as [He Hd].
  unfold st', s', pressRealDevice, callService. simpl. rewrite He. simpl.
  unfold isConnected_service. rewrite Hd.
  split; [reflexivity |].
  destruct (Device.name dev) as [n |]; simpl.
  - destruct (negb (String.eqb n "")) eqn:E; simpl; rewrite state_setState; simpl;
      repeat split.
  - rewrite state_setState. repeat split.
Qed.

Lemma connection_event_reaches_hook_witness :
  let item := {| DeviceItem.id := "CC:DD"; DeviceItem.name := "Tag";
                 DeviceItem.rssi := -48; DeviceItem.type := realDevice |} in
  let s' := pressRealDevice item (Returns nameless) (Returns tt) (Returns tt) freshSession in
  isConnected_service (svc (radio s')) = true
  /\ isConnected (state (Screen.sensor (screen s'))) = false.
Proof.
  intros item s'.
  destruct (connection_event_reaches_hook freshSession item nameless (Returns tt)
              eq_refl eq_refl) as (Hs & Hh & _).
  split; [exact Hs | exact (proj1 Hh)].
Defined.

(** X20. After [handleDisconnect], with the bundle registered, the hook
    shows [isConnected = false] and no device name in either mode. In
    simulated mode the simulation is stopped and the service is not
    called; in real mode the service ends with no active device and the
    hook's simulation flag is left as it was. *)
Theorem handleDisconnect_outcome (s : Session) (c : Outcome unit)
    (Hcb : callbacks (svc (radio s)) = true) :
  let s' := handleDisconnect c s in
  let st := state (Screen.sensor (screen s)) in
  let st' := state (Screen.sensor (screen s')) in
  isConnected st' = false
  /\ connectedDeviceName st' = None
  /\ match connectionMode st with
     | simulated => isSimulating st' = false /\ radio s' = radio s
     | real => isSimulating st' = isSimulating st /\ device (svc (radio s')) = None
     end.
Proof.
  intros s' st st'. unfold st', s', handleDisconnect. fold st.
  destruct (connectionMode st) eqn:Emode.
  - simpl. rewrite state_setState. repeat split.
  - destruct (disconnect_emitted c (radio s) Hcb) as [He Hd].
    unfold callService. simpl. rewrite He. simpl. rewrite state_setState, Hd.
    repeat split.
Qed.

Lemma handleDisconnect_outcome_witness :
  let s := pressRealDevice
             {| DeviceItem.id := "AA:BB"; DeviceItem.name := "Sensor";
                DeviceItem.rssi := -60; DeviceItem.type := realDevice |}
             (Returns sensor) (Returns tt) (Returns tt) freshSession in
  isConnected (state (Screen.sensor (screen s))) = true
  /\ isConnected (state (Screen.sensor (screen (handleDisconnect (Returns tt) s)))) = false
  /\ device (svc (radio (handleDisconnect (Returns tt) s))) = None.
Proof.
  intros s.
  destruct (handleDisconnect_outcome s (Returns tt) eq_refl) as (Hc & _ & Hmode).
  split; [reflexivity |]. split; [exact Hc |].
  change (connectionMode (state (Screen.sensor (screen s)))) with real in Hmode.
  exact (proj2 Hmode).
Defined.

(** X21. On the scan screen, an error event switches the scanning
    indicator off and becomes the shown error; no other event touches
    either. So a [startScan] that the gate refuses, or that the library
    fails to open, leaves the screen not scanning with an error shown,
    whereas a [startScan] on a service without manager, or already
    scanning, tells the screen nothing. *)
Theorem scan_failure_reaches_screen (s : Session) (timeoutMs : Z) (env : GateEnv)
    (o : Outcome unit) (Hcb : callbacks (svc (radio s)) = true) :
  let s' := callService (startScan timeoutMs env o) s in
  (forall evs ui,
     (forall message, ~ In (onError message) evs) ->
     Screen.isScanning (handleEvents evs ui) = Screen.isScanning ui
     /\ Screen.bleError (handleEvents evs ui) = Screen.bleError ui)
  /\ (manager (svc (radio s)) = false \/ isScanning (svc (radio s)) = true ->
      s' = s)
  /\ (manager (svc (radio s)) = true -> isScanning (svc (radio s)) = false ->
      gatePasses env (svc (radio s)) = false \/ (exists message, o = Throws message) ->
      Screen.isScanning (screen s') = false
      /\ (exists message, Screen.bleError (screen s') = Some message)
      /\ isScanning (svc (radio s')) = false)
  /\ (manager (svc (radio s)) = true -> isScanning (svc (radio s)) = false ->
      gatePasses env (svc (radio s)) = true -> o = Returns tt ->
      screen s' = screen s /\ isScanning (svc (radio s')) = true).
Proof.
  intros s'. split.
  { induction evs as [| e evs IH]; intros ui Hno; [split; reflexivity |].
    change (handleEvents (e :: evs) ui) with (handleEvents evs (handleEvent e ui)).
    destruct (IH (handleEvent e ui)) as [H1 H2].
    { intros message Hin. apply (Hno message). right. exact Hin. }
    rewrite H1, H2. destruct e; try (split; reflexivity).
    exfalso. apply (Hno error). left. reflexivity. }
  destruct s as [ui w]. simpl in *. unfold s', callService, emitted. simpl.
  rewrite startScan_spec.
  destruct (checkPermissions_spec env w) as [_ He].
  split; [| split].
  - intros [Hm | Hs]; [rewrite Hm | rewrite Hs, orb_true_r]; simpl;
      rewrite drop_all; reflexivity.
  - intros Hm Hs Hfail. rewrite Hm, Hs. simpl.
    destruct (gatePasses env (svc w)) eqn:Hg.
    + destruct Hfail as [Hfail | [message ->]]; [discriminate |].
      unfold deliver. rewrite Hcb. simpl. rewrite drop_app_length. simpl.
      split; [reflexivity |]. split; [eauto | exact Hs].
    + destruct He as [message ->]. unfold deliver. rewrite Hcb. simpl.
      rewrite drop_app_length. simpl.
      split; [reflexivity |]. split; [eauto | exact Hs].
  - intros Hm Hs Hg ->. rewrite Hm, Hs, Hg. simpl. rewrite drop_all.
    destruct ui. split; reflexivity.
Qed.

Lemma scan_failure_reaches_screen_witness :
  let env := {| OS := ios; Version := None; granted := Returns true;
                radioState := Returns "PoweredOff" |} in
  let s' := callService (startScan 10000 env (Returns tt)) freshSession in
  Screen.isScanning (screen freshSession) = true
  /\ Screen.isScanning (screen s') = false
  /\ (exists message, Screen.bleError (screen s') = Some message).
Proof.
  intros env s'.
  destruct (scan_failure_reaches_screen freshSession 10000 env (Returns tt) eq_refl)
    as (_ & _ & Hfail & _).
  destruct (Hfail eq_refl eq_refl (or_introl eq_refl)) as (Hs & He & _).
  split; [reflexivity |]. split; [exact Hs | exact He].
Defined.

(** ** Bounds *)

(** X22. [decodeBase64] returns on every string, well-formed or not. The
    number of bytes it returns depends only on the length of the string
    and on whether its last two characters are padding marks: it is
    [(3 * length - 4 * pads) / 4] rounded towards zero, hence never more
    than three quarters of the length; and every value returned is a
    byte. *)
Theorem decodeBase64_length (base64 : string) :
  exists bytes,
    decodeBase64 base64 = Some bytes
    /\ Forall isByte bytes
    /\ (let len := Z.of_nat (String.length base64) in
        let pads := Z.b2z (isPad (charAt base64 (len - 1)))
                    + Z.b2z (isPad (charAt base64 (len - 2))) in
        Z.of_nat (length bytes) = (3 * len - 4 * pads) ÷ 4)
    /\ (4 * length bytes <= 3 * String.length base64)%nat.
Proof.
  unfold decodeBase64, newUint8Array.
  destruct (bufferLength_allocates base64) as [n Hn]. simpl in Hn. rewrite Hn.
  destruct (decodeLoop_returns base64 (S (String.length base64)) 0 0%nat (replicate n 0))
    as (out & Hout & Hlen & Hb); [lia |].
  exists out. split; [exact Hout |].
  split; [apply Hb, Forall_replicate; unfold isByte; lia |].
  rewrite length_replicate in Hlen. rewrite Hlen. clear Hout Hb Hlen out.
  set (len := Z.of_nat (String.length base64)) in *.
  assert (Hq : Z.of_nat n
               = (3 * len - 4 * (Z.b2z (isPad (charAt base64 (len - 1)))
                                 + Z.b2z (isPad (charAt base64 (len - 2))))) ÷ 4).
  { unfold ToIndex in Hn.
    destruct (isPad (charAt base64 (len - 1))), (isPad (charAt base64 (len - 2)));
      unfold Qminus, Qplus, Qopp, Qmult, inject_Z in Hn;
      simpl Qnum in Hn; simpl Qden in Hn;
      repeat match type of Hn with
             | context [Z.pos ?d] => progress change (Z.pos d) with 4 in Hn
             end;
      simpl Z.b2z;
      match type of Hn with
      | context [?num ÷ 4] =>
          match goal with
          | |- _ = ?num' ÷ 4 => replace num with num' in Hn by lia
          end
      end;
      match type of Hn with
      | (if ?q <? 0 then _ else _) = _ =>
          destruct (Z.ltb_spec q 0); [discriminate Hn | injection Hn as <-; lia]
      end. }
  split; [exact Hq |].
  set (pads := Z.b2z (isPad (charAt base64 (len - 1)))
               + Z.b2z (isPad (charAt base64 (len - 2)))) in *.
  assert (Hpads : 0 <= pads)
    by (unfold pads; destruct (isPad (charAt base64 (len - 1))),
                              (isPad (charAt base64 (len - 2))); simpl; lia).
  destruct (Z.le_gt_cases 0 (3 * len - 4 * pads)) as [Hpos | Hneg].
  - pose proof (Z.mul_quot_le (3 * len - 4 * pads) 4 Hpos ltac:(lia)) as Hle.
    unfold len in *. lia.
  - assert (Hz : (3 * len - 4 * pads) ÷ 4 <= 0) by (apply Z.quot_le_upper_bound; lia).
    unfold len in *. lia.
Qed.



Lemma polling_delivers_finite_witness :
  byteReading 1000
    {| voltage := JNum (5 # 2); current := JNum (6 # 5);
       temperature := JNum (109 # 10); ph := JNum (36 # 5); timestamp := 1000 |}.
Proof.
  apply (proj2 (polling_delivers_finite (Returns [goodService]) 1000 pollingWorld)).
  vm_compute. left. reflexivity.
Defined.

Lemma scanListener_report_witness :
  let seen := {| Device.id := "EE:FF"; Device.name := Some "Probe";
                 Device.rssi := Some 0; Device.isConnectable := None |} in
  exists item,
    exec (scanListener (ScanSaw (Some seen))) scanningWorld
    = deliver (onDeviceFound item) scanningWorld
    /\ BleDevice.rssi item = -100
    /\ BleDevice.isConnectable item = true.
Proof.
  intros seen.
  pose proof (scanListener_report (Some seen) scanningWorld) as H.
  change (truthy (Device.name seen)) with true in H. cbv iota in H.
  destruct H as (item & He & _ & _ & _ & _ & Hr & Hc).
  exists item. split; [exact He |]. split; [apply Hr; right; reflexivity | exact Hc].
Defined.
